(** * SettingsPage: the settings dialog of RealWorldMapGen-BNG

    A shallow embedding of
    [frontend-new/src/components/Settings/SettingsPage.tsx]: the React
    component's four state cells, its two asynchronous handlers
    ([loadSettings], [handleSave]) with their try / catch / finally blocks,
    the render function with its spinner guard, and an event machine that
    interleaves user events with the settlement of in-flight service calls. *)

From Stdlib Require Import List String ZArith Bool Lia.
From ExtLib Require Import Structures.Monad Data.Monads.EitherMonad.
Import ListNotations.
Import MonadNotation.
Local Open Scope monad_scope.
Local Open Scope string_scope.
Local Open Scope list_scope.

Set Implicit Arguments.
Set Warnings "-register-all".

(* ================================================================== *)
(** ** Data model *)
(* ================================================================== *)

(** [type TabId = 'sources' | 'generation' | 'export' | 'ui' | 'cache' | 'ai'] *)
Module Tab.

Inductive Id := sources | generation | export | ui | cache | ai.

(** [a === b] on the string-literal union. *)
Definition eqb (a b : Id) : bool :=
  match a, b with
  | sources, sources | generation, generation | export, export
  | ui, ui | cache, cache | ai, ai => true
  | _, _ => false
  end.

End Tab.
Abbreviation TabId := Tab.Id.

(** The slices edited by five of the tab editors are opaque to this
    component: it only moves them between the service and the editors.
    They are carried as the JSON values they are on the wire. *)
Inductive Json :=
| JNull
| JBool (b : bool)
| JNum (n : Z)
| JStr (s : string)
| JArr (items : list Json)
| JObj (members : list (string * Json)).

(** The AI slice, with the fields of the object literal at line 160. *)
Record AISettings := {
  enabled : bool;
  ollama_url : string;
  vision_model : string;
  coder_model : string;
  auto_analyze : bool;
  timeout_seconds : Z
}.

(** What reading an optional property of a value that came over the wire
    can give: the key is missing, or it holds [undefined], [null], or an
    object. *)
Inductive Optional (A : Type) :=
| Absent
| Undefined
| Null
| Present (a : A).
Arguments Absent {A}.
Arguments Undefined {A}.
Arguments Null {A}.

(** JavaScript truthiness of such a property: objects are always truthy,
    a missing key reads as [undefined], and [undefined] and [null] are
    falsy. *)
Definition truthy {A} (x : Optional A) : bool :=
  match x with
  | Present _ => true
  | Absent | Undefined | Null => false
  end.

(** [x || d] where [x] is an optional object property. *)
Definition js_or {A} (x : Optional A) (d : A) : A :=
  match x with
  | Present a => a
  | Absent | Undefined | Null => d
  end.

(** [UserSettings] (imported from [@/types/settings]); the fields are the
    ones the component reads. *)
Record UserSettings := {
  credentials : Json;
  generation : Json;
  export_profiles : Json;
  ui : Json;
  cache : Json;
  ai : Optional AISettings
}.

(** [SettingsUpdate]: the all-fields-optional projection of [UserSettings].
    The component builds updates only with the object shorthand
    [{ field }] from a payload of the slice's type, so a field is either
    missing (it reads as [undefined] and is left out of the request body)
    or holds a slice. *)
Module Update.

Record t := mk {
  credentials : option Json;
  generation : option Json;
  export_profiles : option Json;
  ui : option Json;
  cache : option Json;
  ai : option AISettings
}.

(** The top-level keys of the update object. *)
Inductive Key := credentials_k | generation_k | export_profiles_k | ui_k | cache_k | ai_k.

Definition flag {A} (k : Key) (o : option A) : list Key :=
  match o with Some _ => [k] | None => [] end.

Definition keys (u : t) : list Key :=
  flag credentials_k (credentials u) ++ flag generation_k (generation u)
  ++ flag export_profiles_k (export_profiles u) ++ flag ui_k (ui u)
  ++ flag cache_k (cache u) ++ flag ai_k (ai u).

End Update.
Abbreviation SettingsUpdate := Update.t.

(** [x !== undefined] on an optional field of an update. *)
Definition defined {A} (o : option A) : bool :=
  match o with Some _ => true | None => false end.

(** A thrown value / rejection reason. *)
Definition JsError := string.

(** The two calls of [settingsApi] the component makes. *)
Inductive Request :=
| getSettings
| updateSettings (updates : SettingsUpdate).

(** How the promise of a service call settles. *)
Inductive Settled :=
| Fulfilled (v : UserSettings)
| Rejected (e : JsError).

(** The timer callback [() => { window.location.reload(); }]. *)
Inductive Callback := WindowLocationReload.

(* ================================================================== *)
(** ** Handler programs *)
(* ================================================================== *)

(** The statements the handlers execute that do not suspend. *)
Inductive Action :=
| setActiveTab (t : TabId)
| setSettings (s : UserSettings)
| setLoading (b : bool)
| setSaving (b : bool)
| console_error (msg : string) (e : JsError)
| alert (msg : string)
| setTimeout (cb : Callback) (ms : Z)
| onClose.

(** A handler body: it returns, throws, performs an action and goes on, or
    calls the service and goes on when the promise settles. *)
Inductive Prog (A : Type) : Type :=
| Ret (a : A)
| Throw (e : JsError)
| Do (a : Action) (k : Prog A)
| Call (r : Request) (k : Settled -> Prog A).
Arguments Throw {A} e.
Arguments Do {A} a k.
Arguments Call {A} r k.

Fixpoint Prog_bind {A B} (p : Prog A) (f : A -> Prog B) : Prog B :=
  match p with
  | Ret a => f a
  | Throw e => Throw e
  | Do a k => Do a (Prog_bind k f)
  | Call r k => Call r (fun s => Prog_bind (k s) f)
  end.

#[global] Instance Monad_Prog : Monad Prog :=
  {| ret := @Ret; bind := @Prog_bind |}.

Definition act (a : Action) : Prog unit := Do a (Ret tt).

(** [await call]: the value of a fulfilled promise; a rejected one throws
    its reason at the [await]. *)
Definition await (r : Request) : Prog UserSettings :=
  Call r (fun s => match s with
                   | Fulfilled v => Ret v
                   | Rejected e => Throw e
                   end).

(** [try { body } catch (error) { handler }] *)
Fixpoint try_catch (body : Prog unit) (handler : JsError -> Prog unit) : Prog unit :=
  match body with
  | Ret a => Ret a
  | Throw e => handler e
  | Do a k => Do a (try_catch k handler)
  | Call r k => Call r (fun s => try_catch (k s) handler)
  end.

(** [try { body } finally { fin }]: [fin] runs on both exits, and a throw
    of [body] goes on after it. *)
Fixpoint try_finally (body : Prog unit) (fin : Prog unit) : Prog unit :=
  match body with
  | Ret _ => fin
  | Throw e => fin ;; Throw e
  | Do a k => Do a (try_finally k fin)
  | Call r k => Call r (fun s => try_finally (k s) fin)
  end.

Definition try_catch_finally (body : Prog unit) (handler : JsError -> Prog unit)
    (fin : Prog unit) : Prog unit :=
  try_finally (try_catch body handler) fin.

(** Lines 33-42. *)
Definition loadSettings : Prog unit :=
  try_catch_finally
    (data <- await getSettings ;;
     act (setSettings data))
    (fun error => act (console_error "Failed to load settings:" error))
    (act (setLoading false)).

(** Lines 44-64. *)
Definition handleSave (updates : SettingsUpdate) : Prog unit :=
  act (setSaving true) ;;
  try_catch_finally
    (updated <- await (updateSettings updates) ;;
     act (setSettings updated) ;;
     act (alert "Settings saved successfully!") ;;
     if defined (Update.ai updates)
     then act (setTimeout WindowLocationReload 1000)
     else ret tt)
    (fun error =>
       act (console_error "Failed to save settings:" error) ;;
       act (alert "Failed to save settings"))
    (act (setSaving false)).

(** The sidebar buttons' [onClick={() => setActiveTab(tab.id)}]. *)
Definition selectTab (id : TabId) : Prog unit := act (setActiveTab id).

(* ================================================================== *)
(** ** The component's state and the effects it has on its host *)
(* ================================================================== *)

(** What the component does to the outside, in the order it does it. *)
Inductive Effect :=
| Sent (r : Request)                        (* a call of [settingsApi] *)
| ConsoleError (msg : string) (e : JsError) (* [console.error(msg, e)] *)
| Alerted (msg : string)                    (* [alert(msg)] *)
| TimerSet (cb : Callback) (ms : Z)         (* [setTimeout(cb, ms)] *)
| Closed                                    (* the host's [onClose()] *)
| Unhandled (e : JsError).                  (* a rejection nobody catches *)

(** An [async] handler suspended at its [await]. *)
Definition Pending : Type := Request * (Settled -> Prog unit).

(** The four [useState] cells (lines 24-27), the effects so far (oldest
    first) and the handlers waiting for the service. *)
Record World := {
  activeTab : TabId;
  settings : option UserSettings;
  loading : bool;
  saving : bool;
  effects : list Effect;
  inflight : list Pending
}.

Definition emit (e : Effect) (w : World) : World :=
  {| activeTab := activeTab w; settings := settings w; loading := loading w;
     saving := saving w; effects := effects w ++ [e]; inflight := inflight w |}.

Definition suspend (p : Pending) (w : World) : World :=
  {| activeTab := activeTab w; settings := settings w; loading := loading w;
     saving := saving w; effects := effects w; inflight := inflight w ++ [p] |}.

Definition perform (a : Action) (w : World) : World :=
  match a with
  | setActiveTab t =>
      {| activeTab := t; settings := settings w; loading := loading w;
         saving := saving w; effects := effects w; inflight := inflight w |}
  | setSettings s =>
      {| activeTab := activeTab w; settings := Some s; loading := loading w;
         saving := saving w; effects := effects w; inflight := inflight w |}
  | setLoading b =>
      {| activeTab := activeTab w; settings := settings w; loading := b;
         saving := saving w; effects := effects w; inflight := inflight w |}
  | setSaving b =>
      {| activeTab := activeTab w; settings := settings w; loading := loading w;
         saving := b; effects := effects w; inflight := inflight w |}
  | console_error msg e => emit (ConsoleError msg e) w
  | alert msg => emit (Alerted msg) w
  | setTimeout cb ms => emit (TimerSet cb ms) w
  | onClose => emit Closed w
  end.

(** Runs a handler until it returns or suspends at a service call.  The
    handlers are called without a [.catch], so a throw that leaves one is
    an unhandled rejection. *)
Fixpoint exec (p : Prog unit) (w : World) : World :=
  match p with
  | Ret _ => w
  | Throw e => emit (Unhandled e) w
  | Do a k => exec k (perform a w)
  | Call r k => suspend (r, k) (emit (Sent r) w)
  end.

(** The state of lines 24-27 before the mount effect has run. *)
Definition initial : World :=
  {| activeTab := Tab.sources; settings := None; loading := true;
     saving := false; effects := []; inflight := [] |}.

(** Lines 29-31: [useEffect(() => { loadSettings(); }, [])]. *)
Definition mount : World := exec loadSettings initial.

(* ================================================================== *)
(** ** Rendering *)
(* ================================================================== *)

Inductive Icon := Database | Sliders | FileText | Palette | HardDrive | Brain.

Record TabDef := { id : TabId; label : string; icon : Icon }.

(** Lines 76-83. *)
Definition tabs : list TabDef :=
  [ {| id := Tab.sources;    label := "Data Sources";    icon := Database |};
    {| id := Tab.generation; label := "Generation";      icon := Sliders |};
    {| id := Tab.export;     label := "Export Profiles"; icon := FileText |};
    {| id := Tab.ai;         label := "AI Assistant";    icon := Brain |};
    {| id := Tab.ui;         label := "UI & Language";   icon := Palette |};
    {| id := Tab.cache;      label := "Storage";         icon := HardDrive |} ].

(** A rendered sidebar button (lines 108-119). *)
Record TabButton := {
  key : TabId;
  onClick : Prog unit;
  highlighted : bool;
  button_icon : Icon;
  button_label : string
}.

(** The six tab editors with their three props. *)
Inductive Editor :=
| DataSourcesTab (credentials : Json) (onSave : Json -> Prog unit) (saving : bool)
| GenerationTab (generation : Json) (onSave : Json -> Prog unit) (saving : bool)
| ExportProfilesTab (profiles : Json) (onSave : Json -> Prog unit) (saving : bool)
| UIPreferencesTab (ui : Json) (onSave : Json -> Prog unit) (saving : bool)
| AITab (settings : AISettings) (onSave : AISettings -> Prog unit) (saving : bool)
| CacheStorageTab (cache : Json) (onSave : Json -> Prog unit) (saving : bool).

(** What the component returns: the spinner of lines 67-73, or the dialog
    of lines 85-177 with its close button, sidebar and content area. *)
Inductive View :=
| Spinner
| Dialog (close : Prog unit) (sidebar : list TabButton) (content : list Editor).

(** Rendering can throw. *)
Definition Render : Type -> Type := sum JsError.

(** [settings.field]: reading a property of [null] throws a TypeError. *)
Definition prop {A} (s : option UserSettings) (field : UserSettings -> A) : Render A :=
  match s with
  | Some loaded => inr (field loaded)
  | None => inl "TypeError: Cannot read properties of null"
  end.

(** [{cond && (<Element />)}]: the element is evaluated only when [cond]
    holds, and [false] renders nothing. *)
Definition jsx_and {A} (cond : bool) (element : Render A) : Render (list A) :=
  if cond then (e <- element ;; ret [e]) else ret [].

(** The default of line 160. *)
Definition ai_default : AISettings :=
  {| enabled := false;
     ollama_url := "http://localhost:11434";
     vision_model := "qwen3-vl:235b-cloud";
     coder_model := "qwen3-coder:480b-cloud";
     auto_analyze := false;
     timeout_seconds := 120 |}.

(** Lines 105-121. *)
Definition render_button (w : World) (tab : TabDef) : TabButton :=
  {| key := id tab;
     onClick := selectTab (id tab);
     highlighted := Tab.eqb (activeTab w) (id tab);
     button_icon := icon tab;
     button_label := label tab |}.

(** [!settings] on [UserSettings | null]. *)
Definition not_ (s : option UserSettings) : bool :=
  match s with Some _ => false | None => true end.

(** Lines 66-177. *)
Definition render (w : World) : Render View :=
  if loading w || not_ (settings w) then ret Spinner
  else
    sources_ <- jsx_and (Tab.eqb (activeTab w) Tab.sources)
      (credentials <- prop (settings w) credentials ;;
       ret (DataSourcesTab credentials
              (fun credentials =>
                 handleSave (Update.mk (Some credentials) None None None None None))
              (saving w))) ;;
    generation_ <- jsx_and (Tab.eqb (activeTab w) Tab.generation)
      (generation <- prop (settings w) generation ;;
       ret (GenerationTab generation
              (fun generation =>
                 handleSave (Update.mk None (Some generation) None None None None))
              (saving w))) ;;
    export_ <- jsx_and (Tab.eqb (activeTab w) Tab.export)
      (profiles <- prop (settings w) export_profiles ;;
       ret (ExportProfilesTab profiles
              (fun export_profiles =>
                 handleSave (Update.mk None None (Some export_profiles) None None None))
              (saving w))) ;;
    ui_ <- jsx_and (Tab.eqb (activeTab w) Tab.ui)
      (ui <- prop (settings w) ui ;;
       ret (UIPreferencesTab ui
              (fun ui => handleSave (Update.mk None None None (Some ui) None None))
              (saving w))) ;;
    ai_ <- jsx_and (Tab.eqb (activeTab w) Tab.ai)
      (ai <- prop (settings w) ai ;;
       ret (AITab (js_or ai ai_default)
              (fun ai => handleSave (Update.mk None None None None None (Some ai)))
              (saving w))) ;;
    cache_ <- jsx_and (Tab.eqb (activeTab w) Tab.cache)
      (cache <- prop (settings w) cache ;;
       ret (CacheStorageTab cache
              (fun cache => handleSave (Update.mk None None None None (Some cache) None))
              (saving w))) ;;
    ret (Dialog (act onClose)
                (map (render_button w) tabs)
                (sources_ ++ generation_ ++ export_ ++ ui_ ++ ai_ ++ cache_)).

(* ================================================================== *)
(** ** The event machine *)
(* ================================================================== *)

(** What can happen to a mounted component: the user clicks a sidebar
    button or the close button, the editor on screen calls its [onSave],
    or the promise of an in-flight service call settles. *)
Inductive Event :=
| Click (t : TabId)
| ClickClose
| Save (slice : Json)
| SaveAI (slice : AISettings)
| Settle (i : nat) (s : Settled).

Definition json_onSave (e : Editor) : option (Json -> Prog unit) :=
  match e with
  | DataSourcesTab _ f _ | GenerationTab _ f _ | ExportProfilesTab _ f _
  | UIPreferencesTab _ f _ | CacheStorageTab _ f _ => Some f
  | AITab _ _ _ => None
  end.

Definition ai_onSave (e : Editor) : option (AISettings -> Prog unit) :=
  match e with
  | AITab _ f _ => Some f
  | _ => None
  end.

Fixpoint first_some {A B} (f : A -> option B) (l : list A) : option B :=
  match l with
  | [] => None
  | x :: l' => match f x with Some b => Some b | None => first_some f l' end
  end.

Definition remove_nth {A} (i : nat) (l : list A) : list A :=
  firstn i l ++ skipn (S i) l.

Definition resolve (i : nat) (w : World) : World :=
  {| activeTab := activeTab w; settings := settings w; loading := loading w;
     saving := saving w; effects := effects w;
     inflight := remove_nth i (inflight w) |}.

(** One event.  A user event needs its control on screen: it runs the
    handler the last render attached to that control.  [None]: the event
    cannot happen in this state. *)
Definition step (e : Event) (w : World) : option World :=
  match e with
  | Settle i s =>
      match nth_error (inflight w) i with
      | Some (_, k) => Some (exec (k s) (resolve i w))
      | None => None
      end
  | Click t =>
      match render w with
      | inr (Dialog _ sidebar _) =>
          match find (fun b => Tab.eqb (key b) t) sidebar with
          | Some b => Some (exec (onClick b) w)
          | None => None
          end
      | _ => None
      end
  | ClickClose =>
      match render w with
      | inr (Dialog close _ _) => Some (exec close w)
      | _ => None
      end
  | Save slice =>
      match render w with
      | inr (Dialog _ _ content) =>
          match first_some json_onSave content with
          | Some f => Some (exec (f slice) w)
          | None => None
          end
      | _ => None
      end
  | SaveAI slice =>
      match render w with
      | inr (Dialog _ _ content) =>
          match first_some ai_onSave content with
          | Some f => Some (exec (f slice) w)
          | None => None
          end
      | _ => None
      end
  end.

Fixpoint run (evs : list Event) (w : World) : option World :=
  match evs with
  | [] => Some w
  | e :: evs' => match step e w with
                 | Some w' => run evs' w'
                 | None => None
                 end
  end.

(** The states a mounted component can be in. *)
Inductive reachable : World -> Prop :=
| reachable_mount : reachable mount
| reachable_step e w w' : reachable w -> step e w = Some w' -> reachable w'.

(** The effects of [w'] that [w] did not have yet. *)
Definition new_effects (w w' : World) : list Effect :=
  skipn (List.length (effects w)) (effects w').

(** A rejection that no handler caught. *)
Definition is_unhandled (e : Effect) : bool :=
  match e with Unhandled _ => true | _ => false end.

(* ================================================================== *)
(** ** A run of the whole component *)
(* ================================================================== *)

(** The settings of a user who never configured the assistant. *)
Definition no_ai : UserSettings :=
  {| credentials := JObj []; generation := JObj []; export_profiles := JArr [];
     ui := JObj []; cache := JObj []; ai := Absent |}.

Definition ai_on : AISettings :=
  {| enabled := true; ollama_url := "http://localhost:11434";
     vision_model := "qwen3-vl:235b-cloud"; coder_model := "qwen3-coder:480b-cloud";
     auto_analyze := false; timeout_seconds := 120 |}.

Definition with_ai : UserSettings :=
  {| credentials := JObj []; generation := JObj []; export_profiles := JArr [];
     ui := JObj []; cache := JObj []; ai := Present ai_on |}.

(** Mount, load settings without [ai], open the AI tab, save an enabled
    assistant, and get the full settings back. *)
Definition scenario : list Event :=
  [ Settle 0 (Fulfilled no_ai); Click Tab.ai; SaveAI ai_on; Settle 0 (Fulfilled with_ai) ].

(* ================================================================== *)
(** ** Vocabulary of the statements *)
(* ================================================================== *)

(** The [if] of lines 53-57. *)
Definition maybe_reload (u : SettingsUpdate) (w : World) : World :=
  if defined (Update.ai u) then perform (setTimeout WindowLocationReload 1000) w else w.

(** Where an in-flight continuation comes from: it is the rest of
    [loadSettings], or the rest of [handleSave u] for the update [u] that
    was sent. *)
Inductive origin : Pending -> Prop :=
| from_load k :
    loadSettings = Call getSettings k -> origin (getSettings, k)
| from_save u k :
    handleSave u = Do (setSaving true) (Call (updateSettings u) k) ->
    origin (updateSettings u, k).

(** The editor of the active tab once the settings are there. *)
Definition editor_of (w : World) (us : UserSettings) : Editor :=
  match activeTab w with
  | Tab.sources =>
      DataSourcesTab (credentials us)
        (fun c => handleSave (Update.mk (Some c) None None None None None)) (saving w)
  | Tab.generation =>
      GenerationTab (generation us)
        (fun g => handleSave (Update.mk None (Some g) None None None None)) (saving w)
  | Tab.export =>
      ExportProfilesTab (export_profiles us)
        (fun x => handleSave (Update.mk None None (Some x) None None None)) (saving w)
  | Tab.ui =>
      UIPreferencesTab (ui us)
        (fun i => handleSave (Update.mk None None None (Some i) None None)) (saving w)
  | Tab.cache =>
      CacheStorageTab (cache us)
        (fun h => handleSave (Update.mk None None None None (Some h) None)) (saving w)
  | Tab.ai =>
      AITab (js_or (ai us) ai_default)
        (fun a => handleSave (Update.mk None None None None None (Some a))) (saving w)
  end.

(** The update the [onSave] of the JSON editor of tab [t] sends. *)
Definition json_update (t : TabId) (slice : Json) : option SettingsUpdate :=
  match t with
  | Tab.sources => Some (Update.mk (Some slice) None None None None None)
  | Tab.generation => Some (Update.mk None (Some slice) None None None None)
  | Tab.export => Some (Update.mk None None (Some slice) None None None)
  | Tab.ui => Some (Update.mk None None None (Some slice) None None)
  | Tab.cache => Some (Update.mk None None None None (Some slice) None)
  | Tab.ai => None
  end.

(** The update the [onSave] of the AI editor sends. *)
Definition ai_update (slice : AISettings) : SettingsUpdate :=
  Update.mk None None None None None (Some slice).

(** A state after issuing the request [r] with continuation [k]. *)
Definition issue (r : Request) (k : Settled -> Prog unit) (w : World) : World :=
  suspend (r, k) (emit (Sent r) (perform (setSaving true) w)).

(** Every step the machine can take, by event and by the call that settles. *)
Inductive transition : Event -> World -> World -> Prop :=
| t_click t w us :
    loading w = false -> settings w = Some us ->
    transition (Click t) w (perform (setActiveTab t) w)
| t_close w us :
    loading w = false -> settings w = Some us ->
    transition ClickClose w (emit Closed w)
| t_save slice w us u k :
    loading w = false -> settings w = Some us ->
    json_update (activeTab w) slice = Some u ->
    origin (updateSettings u, k) ->
    transition (Save slice) w (issue (updateSettings u) k w)
| t_save_ai slice w us k :
    loading w = false -> settings w = Some us ->
    activeTab w = Tab.ai ->
    origin (updateSettings (ai_update slice), k) ->
    transition (SaveAI slice) w (issue (updateSettings (ai_update slice)) k w)
| t_load_ok i k data w :
    nth_error (inflight w) i = Some (getSettings, k) ->
    transition (Settle i (Fulfilled data)) w
      (perform (setLoading false) (perform (setSettings data) (resolve i w)))
| t_load_fail i k e w :
    nth_error (inflight w) i = Some (getSettings, k) ->
    transition (Settle i (Rejected e)) w
      (perform (setLoading false)
         (perform (console_error "Failed to load settings:" e) (resolve i w)))
| t_save_ok i u k updated w :
    nth_error (inflight w) i = Some (updateSettings u, k) ->
    transition (Settle i (Fulfilled updated)) w
      (perform (setSaving false)
         (maybe_reload u
            (perform (alert "Settings saved successfully!")
               (perform (setSettings updated) (resolve i w)))))
| t_save_fail i u k e w :
    nth_error (inflight w) i = Some (updateSettings u, k) ->
    transition (Settle i (Rejected e)) w
      (perform (setSaving false)
         (perform (alert "Failed to save settings")
            (perform (console_error "Failed to save settings:" e) (resolve i w)))).

(** The three phases of the component, told apart by [settings] and
    [loading]: the fetch is the only call in flight; the fetch has failed
    and nothing is in flight; the settings are there and only saves are in
    flight. *)
Definition Inv (w : World) : Prop :=
  Forall origin (inflight w) /\
  match settings w, loading w with
  | None, true => exists k, inflight w = [(getSettings, k)]
  | None, false => inflight w = []
  | Some _, true => False
  | Some _, false => forall k, ~ In (getSettings, k) (inflight w)
  end.

(** What a settled call adds to the effects, by the request it answers. *)
Definition settle_effects (r : Request) (s : Settled) : list Effect :=
  match r, s with
  | getSettings, Fulfilled _ => []
  | getSettings, Rejected e => [ConsoleError "Failed to load settings:" e]
  | updateSettings u, Fulfilled _ =>
      Alerted "Settings saved successfully!"
      :: (if defined (Update.ai u) then [TimerSet WindowLocationReload 1000] else [])
  | updateSettings u, Rejected e =>
      [ConsoleError "Failed to save settings:" e; Alerted "Failed to save settings"]
  end.

(** What a step adds to the effects. *)
Definition step_effects (e : Event) (w : World) : list Effect :=
  match e with
  | Click _ => []
  | ClickClose => [Closed]
  | Save slice =>
      match json_update (activeTab w) slice with
      | Some u => [Sent (updateSettings u)]
      | None => []
      end
  | SaveAI slice => [Sent (updateSettings (ai_update slice))]
  | Settle i s =>
      match nth_error (inflight w) i with
      | Some (r, _) => settle_effects r s
      | None => []
      end
  end.

(** A world with one save of the AI slice in flight. *)
Definition ai_save_in_flight : World :=
  match run [Settle 0 (Fulfilled no_ai); Click Tab.ai; SaveAI ai_on] mount with
  | Some w => w
  | None => initial
  end.

(** A world with the settings loaded and one save of a JSON slice in
    flight. *)
Definition json_save_in_flight : World :=
  match run [Settle 0 (Fulfilled no_ai); Save (JObj [("provider", JStr "osm")])] mount with
  | Some w => w
  | None => initial
  end.

(** An [onSave] callback that sends an update holding the slice it is
    given under the key [key] and nothing else. *)
Definition single_field {A} (onSave : A -> Prog unit) (key : Update.Key)
    (field : SettingsUpdate -> option A) : Prop :=
  forall slice : A,
    exists u, onSave slice = handleSave u /\
              Update.keys u = [key] /\
              field u = Some slice.

(** A world with the settings [us] loaded and the tab [t] selected. *)
Definition loaded_on (t : TabId) (us : UserSettings) : World :=
  {| activeTab := t; settings := Some us; loading := false; saving := false;
     effects := [Sent getSettings]; inflight := [] |}.

(** What it takes for the event [e], in a state with active tab [t], to
    send the update [u]: the editor on screen calls its [onSave]. *)
Definition saves (e : Event) (t : TabId) (u : SettingsUpdate) : Prop :=
  (exists slice, e = Save slice /\ json_update t slice = Some u) \/
  (exists slice, e = SaveAI slice /\ t = Tab.ai /\ u = ai_update slice).

Definition default_saved : list Event :=
  [ Settle 0 (Fulfilled no_ai); Click Tab.ai; SaveAI ai_default ].

Definition load_in_flight (w : World) : Prop :=
  exists i k, nth_error (inflight w) i = Some (getSettings, k).

Definition save_in_flight (w : World) : Prop :=
  exists i u k, nth_error (inflight w) i = Some (updateSettings u, k).

(** Tab switching is available: every tab can be selected by a click. *)
Definition can_switch_tabs (w : World) : Prop :=
  forall t, exists w', step (Click t) w = Some w'.

Definition null_ai : UserSettings :=
  {| credentials := JObj []; generation := JObj []; export_profiles := JArr [];
     ui := JObj []; cache := JObj []; ai := Null |}.

(** How many elements of a list pass a test. *)
Definition count {A} (f : A -> bool) (l : list A) : nat :=
  List.length (filter f l).

(** The call [settingsApi.getSettings()]. *)
Definition is_fetch (e : Effect) : bool :=
  match e with Sent getSettings => true | _ => false end.

(** A call [settingsApi.updateSettings(updates)]. *)
Definition is_update_sent (e : Effect) : bool :=
  match e with Sent (updateSettings _) => true | _ => false end.

(** An [alert], of success or of failure. *)
Definition is_alert (e : Effect) : bool :=
  match e with Alerted _ => true | _ => false end.

(** A suspended [handleSave]. *)
Definition is_save_pending (p : Pending) : bool :=
  match fst p with updateSettings _ => true | getSettings => false end.

(** The position an in-flight call at [j] has once the one at [i] is gone. *)
Definition shifted (i j : nat) : nat :=
  if Nat.ltb j i then j else pred j.

(** A world with two saves in flight: one of the credentials, issued
    first, and one of the AI slice. *)
Definition two_saves_in_flight : World :=
  match run [ Settle 0 (Fulfilled no_ai); Save (JObj [("provider", JStr "osm")]);
              Click Tab.ai; SaveAI ai_on ] mount with
  | Some w => w
  | None => initial
  end.

(* ================================================================== *)
(** ** What the handlers do *)
(* ================================================================== *)

Ltac world w := destruct w as [tab st ld sv fx pend]; simpl in *.

(** [js_or] agrees with JavaScript's [||] on truthiness. *)
Lemma js_or_truthy {A} (x : Optional A) (d : A) :
  (truthy x = true -> Present (js_or x d) = x) /\
  (truthy x = false -> js_or x d = d).
Proof. destruct x; simpl; split; intros H; congruence. Qed.

(** [loadSettings] runs up to its [await] without touching the state. *)
Lemma loadSettings_call :
  exists k, loadSettings = Call getSettings k.
Proof. eexists. reflexivity. Qed.

(** [handleSave] sets the flag and then waits for the service. *)
Lemma handleSave_call (u : SettingsUpdate) :
  exists k, handleSave u = Do (setSaving true) (Call (updateSettings u) k).
Proof. eexists. reflexivity. Qed.

(** The rest of [loadSettings] once the fetch has settled. *)
Lemma load_fulfilled k data w :
  loadSettings = Call getSettings k ->
  exec (k (Fulfilled data)) w = perform (setLoading false) (perform (setSettings data) w).
Proof. intros H. injection H as <-. reflexivity. Qed.

Lemma load_rejected k e w :
  loadSettings = Call getSettings k ->
  exec (k (Rejected e)) w =
  perform (setLoading false) (perform (console_error "Failed to load settings:" e) w).
Proof. intros H. injection H as <-. reflexivity. Qed.

(** The rest of [handleSave] once the update call has settled. *)
Lemma save_fulfilled u k updated w :
  handleSave u = Do (setSaving true) (Call (updateSettings u) k) ->
  exec (k (Fulfilled updated)) w =
  perform (setSaving false)
    (maybe_reload u
       (perform (alert "Settings saved successfully!")
          (perform (setSettings updated) w))).
Proof.
  intros H. injection H as <-. unfold maybe_reload.
  destruct u as [c g x i h a]; destruct a; reflexivity.
Qed.

Lemma save_rejected u k e w :
  handleSave u = Do (setSaving true) (Call (updateSettings u) k) ->
  exec (k (Rejected e)) w =
  perform (setSaving false)
    (perform (alert "Failed to save settings")
       (perform (console_error "Failed to save settings:" e) w)).
Proof. intros H. injection H as <-. reflexivity. Qed.

(** Issuing a save from any state. *)
Lemma exec_handleSave u w :
  exists k,
    origin (updateSettings u, k) /\
    exec (handleSave u) w =
    suspend (updateSettings u, k)
      (emit (Sent (updateSettings u)) (perform (setSaving true) w)).
Proof.
  destruct (handleSave_call u) as [k Hk]. exists k. split.
  - now constructor.
  - rewrite Hk. reflexivity.
Qed.

Lemma mount_world :
  exists k,
    origin (getSettings, k) /\
    mount = suspend (getSettings, k) (emit (Sent getSettings) initial).
Proof.
  destruct loadSettings_call as [k Hk]. exists k. split.
  - now constructor.
  - unfold mount. rewrite Hk. reflexivity.
Qed.

(* ================================================================== *)
(** ** What is on screen *)
(* ================================================================== *)

Lemma render_spinner w :
  loading w = true \/ settings w = None -> render w = inr Spinner.
Proof.
  world w. intros [-> | ->]; [reflexivity|]. destruct ld; reflexivity.
Qed.

Lemma render_dialog w us :
  loading w = false -> settings w = Some us ->
  render w = inr (Dialog (act onClose) (map (render_button w) tabs) [editor_of w us]).
Proof.
  world w. intros -> ->. destruct tab; reflexivity.
Qed.

(** Rendering has one of these two outcomes and no other. *)
Lemma render_cases w :
  (render w = inr Spinner /\ (loading w = true \/ settings w = None)) \/
  (exists us, loading w = false /\ settings w = Some us /\
     render w = inr (Dialog (act onClose) (map (render_button w) tabs) [editor_of w us])).
Proof.
  destruct (loading w) eqn:Hl.
  - left. split; [apply render_spinner|]; auto.
  - destruct (settings w) as [us|] eqn:Hs.
    + right. exists us. auto using render_dialog.
    + left. split; [apply render_spinner|]; auto.
Qed.

(* ================================================================== *)
(** ** The transitions of the machine *)
(* ================================================================== *)

Lemma step_click w us t :
  loading w = false -> settings w = Some us ->
  step (Click t) w = Some (perform (setActiveTab t) w).
Proof.
  intros Hl Hs. unfold step. rewrite (render_dialog w Hl Hs).
  destruct t; reflexivity.
Qed.

Lemma step_close w us :
  loading w = false -> settings w = Some us ->
  step ClickClose w = Some (emit Closed w).
Proof.
  intros Hl Hs. unfold step. rewrite (render_dialog w Hl Hs). reflexivity.
Qed.

Lemma step_save w us slice :
  loading w = false -> settings w = Some us ->
  step (Save slice) w =
  option_map (fun u => exec (handleSave u) w) (json_update (activeTab w) slice).
Proof.
  intros Hl Hs. unfold step. rewrite (render_dialog w Hl Hs).
  unfold editor_of. destruct (activeTab w); reflexivity.
Qed.

Lemma step_save_ai w us slice :
  loading w = false -> settings w = Some us ->
  step (SaveAI slice) w =
  if Tab.eqb (activeTab w) Tab.ai
  then Some (exec (handleSave (ai_update slice)) w)
  else None.
Proof.
  intros Hl Hs. unfold step. rewrite (render_dialog w Hl Hs).
  unfold editor_of. destruct (activeTab w); reflexivity.
Qed.

(** Behind the spinner no control is on screen. *)
Lemma step_spinner w e :
  loading w = true \/ settings w = None ->
  (forall i s, e <> Settle i s) ->
  step e w = None.
Proof.
  intros H He. apply render_spinner in H.
  destruct e; simpl; rewrite ?H; try reflexivity.
  now destruct (He i s).
Qed.

Lemma tab_eqb_eq a b : Tab.eqb a b = true <-> a = b.
Proof. destruct a, b; simpl; split; congruence. Qed.

(** [step] takes exactly the transitions above, as long as the in-flight
    continuations are the handlers' own. *)
Lemma step_transition e w w' :
  Forall origin (inflight w) -> step e w = Some w' -> transition e w w'.
Proof.
  intros Hall Hstep.
  destruct e as [t| |slice|slice|i s].
  - destruct (render_cases w) as [[_ Hsp]|(us & Hl & Hs & _)].
    + rewrite step_spinner in Hstep by (auto; discriminate). discriminate.
    + rewrite (step_click w t Hl Hs) in Hstep. injection Hstep as <-.
      econstructor; eauto.
  - destruct (render_cases w) as [[_ Hsp]|(us & Hl & Hs & _)].
    + rewrite step_spinner in Hstep by (auto; discriminate). discriminate.
    + rewrite (step_close w Hl Hs) in Hstep. injection Hstep as <-.
      econstructor; eauto.
  - destruct (render_cases w) as [[_ Hsp]|(us & Hl & Hs & _)].
    + rewrite step_spinner in Hstep by (auto; discriminate). discriminate.
    + rewrite (step_save w slice Hl Hs) in Hstep.
      destruct (json_update (activeTab w) slice) as [u|] eqn:Hu; [|discriminate].
      cbn [option_map] in Hstep.
      destruct (exec_handleSave u w) as (k & Hk & Hx). rewrite Hx in Hstep.
      injection Hstep as <-.
      econstructor; eauto.
  - destruct (render_cases w) as [[_ Hsp]|(us & Hl & Hs & _)].
    + rewrite step_spinner in Hstep by (auto; discriminate). discriminate.
    + rewrite (step_save_ai w slice Hl Hs) in Hstep.
      destruct (Tab.eqb (activeTab w) Tab.ai) eqn:Ht; [|discriminate].
      apply tab_eqb_eq in Ht.
      destruct (exec_handleSave (ai_update slice) w) as (k & Hk & Hx).
      rewrite Hx in Hstep. injection Hstep as <-.
      econstructor; eauto.
  - simpl in Hstep.
    destruct (nth_error (inflight w) i) as [[r k]|] eqn:Hi; [|discriminate].
    injection Hstep as <-.
    assert (Ho : origin (r, k)).
    { rewrite Forall_forall in Hall. apply Hall. eapply nth_error_In; eauto. }
    inversion Ho as [k0 Hk|u k0 Hk]; subst; destruct s as [v|err].
    + rewrite (load_fulfilled _ _ Hk). econstructor; eauto.
    + rewrite (load_rejected _ _ Hk). econstructor; eauto.
    + rewrite (save_fulfilled _ _ Hk). econstructor; eauto.
    + rewrite (save_rejected _ _ Hk). econstructor; eauto.
Qed.

(* ================================================================== *)
(** ** The invariant of a mounted component *)
(* ================================================================== *)

Lemma In_remove_nth {A} (x : A) i l : In x (remove_nth i l) -> In x l.
Proof.
  unfold remove_nth. intros H. apply in_app_or in H as [H|H].
  - rewrite <- (firstn_skipn i l). apply in_or_app. now left.
  - rewrite <- (firstn_skipn (S i) l). apply in_or_app. now right.
Qed.

Lemma Forall_remove_nth {A} (P : A -> Prop) i l :
  Forall P l -> Forall P (remove_nth i l).
Proof.
  rewrite !Forall_forall. intros H x Hx. apply H. eapply In_remove_nth; eauto.
Qed.

Lemma Inv_mount : Inv mount.
Proof.
  destruct mount_world as (k & Hk & ->). split; simpl.
  - constructor; auto.
  - eauto.
Qed.

(** While the settings are unset, no save is in flight. *)
Lemma Inv_no_save_before_load w i u k :
  Inv w -> settings w = None ->
  nth_error (inflight w) i = Some (updateSettings u, k) -> False.
Proof.
  intros [_ H] Hs Hi. rewrite Hs in H. destruct (loading w).
  - destruct H as [k0 H]. rewrite H in Hi.
    destruct i as [|[|i]]; simpl in Hi; discriminate.
  - rewrite H in Hi. destruct i; discriminate.
Qed.

(** While the fetch is in flight, it is the only call, the settings are
    unset and the loading flag is up. *)
Lemma Inv_load_in_flight w i k :
  Inv w -> nth_error (inflight w) i = Some (getSettings, k) ->
  settings w = None /\ loading w = true /\ inflight w = [(getSettings, k)] /\ i = 0.
Proof.
  intros [_ H] Hi. destruct (settings w) as [us|], (loading w); try contradiction.
  - exfalso. eapply H, nth_error_In, Hi.
  - destruct H as [k0 H]. rewrite H in Hi |- *.
    destruct i as [|[|i]]; simpl in Hi; try discriminate.
    injection Hi as ->. auto.
  - rewrite H in Hi. destruct i; discriminate.
Qed.

Lemma Inv_ready_intro w us :
  settings w = Some us -> loading w = false ->
  Forall origin (inflight w) ->
  (forall k, ~ In (getSettings, k) (inflight w)) ->
  Inv w.
Proof. intros Hs Hl Ho Hn. split; [assumption|]. now rewrite Hs, Hl. Qed.

Lemma Inv_ready_elim w us :
  Inv w -> settings w = Some us ->
  loading w = false /\ forall k, ~ In (getSettings, k) (inflight w).
Proof.
  intros [_ H] Hs. rewrite Hs in H. destruct (loading w); [contradiction|auto].
Qed.

Lemma Inv_transition e w w' : Inv w -> transition e w w' -> Inv w'.
Proof.
  intros HI Ht. pose proof HI as [Ho _].
  inversion Ht; subst; clear Ht.
  - (* click *)
    destruct (Inv_ready_elim HI H0) as [_ Hn].
    apply Inv_ready_intro with us; world w; auto.
  - (* close *)
    destruct (Inv_ready_elim HI H0) as [_ Hn].
    apply Inv_ready_intro with us; world w; auto.
  - (* save *)
    destruct (Inv_ready_elim HI H0) as [_ Hn].
    apply Inv_ready_intro with us; world w; auto.
    + apply Forall_app. split; auto.
    + intros k0 Hin. apply in_app_or in Hin as [Hin|[Hin|[]]].
      * eapply Hn; eauto.
      * discriminate.
  - (* save from the AI tab *)
    destruct (Inv_ready_elim HI H0) as [_ Hn].
    apply Inv_ready_intro with us; world w; auto.
    + apply Forall_app. split; auto.
    + intros k0 Hin. apply in_app_or in Hin as [Hin|[Hin|[]]].
      * eapply Hn; eauto.
      * discriminate.
  - (* the fetch is fulfilled *)
    destruct (Inv_load_in_flight _ HI H) as (Hs & Hl & Hin & ->).
    apply Inv_ready_intro with data; world w; subst; simpl; auto.
  - (* the fetch is rejected *)
    destruct (Inv_load_in_flight _ HI H) as (Hs & Hl & Hin & ->).
    world w; subst. split; simpl; auto.
  - (* a save is fulfilled *)
    destruct (settings w) as [us|] eqn:Hs;
      [|exfalso; eapply Inv_no_save_before_load; eauto].
    destruct (Inv_ready_elim HI Hs) as [Hl Hn].
    apply Inv_ready_intro with updated; unfold maybe_reload;
      destruct (defined (Update.ai u)); world w; auto using Forall_remove_nth.
    all: intros k0 Hin; apply In_remove_nth in Hin; eapply Hn; eauto.
  - (* a save is rejected *)
    destruct (settings w) as [us|] eqn:Hs;
      [|exfalso; eapply Inv_no_save_before_load; eauto].
    destruct (Inv_ready_elim HI Hs) as [Hl Hn].
    apply Inv_ready_intro with us; world w; auto using Forall_remove_nth.
    intros k0 Hin; apply In_remove_nth in Hin; eapply Hn; eauto.
Qed.

Lemma reachable_Inv w : reachable w -> Inv w.
Proof.
  induction 1 as [|e w w' _ IH Hstep].
  - apply Inv_mount.
  - eapply Inv_transition; [exact IH|].
    apply step_transition; [apply IH | exact Hstep].
Qed.

(** Every step of a mounted component is one of the transitions. *)
Lemma reachable_transition e w w' :
  reachable w -> step e w = Some w' -> transition e w w'.
Proof.
  intros Hr. apply step_transition. now apply reachable_Inv.
Qed.

Lemma run_reachable evs w w' :
  reachable w -> run evs w = Some w' -> reachable w'.
Proof.
  revert w. induction evs as [|e evs IH]; simpl; intros w Hr Hrun.
  - now injection Hrun as <-.
  - destruct (step e w) as [w1|] eqn:Hstep; [|discriminate].
    eapply IH; [|exact Hrun]. econstructor; eauto.
Qed.

(* ================================================================== *)
(** ** The effects of a step *)
(* ================================================================== *)

Lemma new_effects_app w w' l :
  effects w' = effects w ++ l -> new_effects w w' = l.
Proof.
  intros H. unfold new_effects. rewrite H, skipn_app, skipn_all, Nat.sub_diag.
  reflexivity.
Qed.

Lemma transition_effects e w w' :
  transition e w w' -> effects w' = effects w ++ step_effects e w.
Proof.
  intros Ht. inversion Ht; subst; clear Ht; unfold step_effects;
    rewrite ?H, ?H1; unfold maybe_reload; simpl;
    try destruct (defined (Update.ai u)); world w;
    rewrite <- ?app_assoc, ?app_nil_r; reflexivity.
Qed.

Lemma transition_new_effects e w w' :
  transition e w w' -> new_effects w w' = step_effects e w.
Proof. intros Ht. apply new_effects_app. now apply transition_effects. Qed.

(** A settlement of an in-flight call is always possible. *)
Lemma step_settle_enabled w i r k s :
  nth_error (inflight w) i = Some (r, k) ->
  exists w', step (Settle i s) w = Some w'.
Proof. intros H. simpl. rewrite H. eauto. Qed.

Unset Implicit Arguments.

(** The whole scenario: the default is rendered, the save goes out with the
    [ai] key alone, the response is stored, and the reload is scheduled. *)
Example end_to_end :
  exists w,
    run scenario mount = Some w /\
    activeTab w = Tab.ai /\
    settings w = Some with_ai /\
    loading w = false /\ saving w = false /\
    inflight w = [] /\
    effects w =
      [ Sent getSettings;
        Sent (updateSettings (ai_update ai_on));
        Alerted "Settings saved successfully!";
        TimerSet WindowLocationReload 1000 ].
Proof. eexists. split; [reflexivity|]. repeat split. Qed.

(* ================================================================== *)
(** ** Reload policy *)
(* ================================================================== *)

Lemma ai_save_in_flight_reachable : reachable ai_save_in_flight.
Proof.
  apply run_reachable
    with (evs := [Settle 0 (Fulfilled no_ai); Click Tab.ai; SaveAI ai_on]) (w := mount).
  - constructor.
  - reflexivity.
Qed.

(** C1.  In any state of a mounted component and for any step, a timer is
    set by the step exactly when the step is the fulfilment of an update
    call whose update has the [ai] field, whatever its value and whatever
    the settings held before; that timer is the page reload with a delay of
    1000 milliseconds.  So a fulfilled update without the [ai] field, a
    rejected update, and every other event set no timer. *)
Theorem reload_iff_successful_ai_save (w w' : World) (e : Event) :
  reachable w -> step e w = Some w' ->
  forall cb ms,
    In (TimerSet cb ms) (new_effects w w') <->
    cb = WindowLocationReload /\ ms = 1000%Z /\
    exists i u k response,
      e = Settle i (Fulfilled response) /\
      nth_error (inflight w) i = Some (updateSettings u, k) /\
      Update.ai u <> None.
Proof.
  intros Hr Hstep cb ms.
  pose proof (@reachable_transition _ _ _ Hr Hstep) as Ht.
  rewrite (transition_new_effects Ht).
  inversion Ht; subst; clear Ht; unfold step_effects; rewrite ?H, ?H1; simpl.
  1-6, 8: split;
    [ intros Hin; repeat (destruct Hin as [Hin|Hin]; try discriminate); contradiction
    | intros (_ & _ & i0 & u0 & k0 & r0 & He & Hn & _); try discriminate;
      inversion He; subst; congruence ].
  destruct (Update.ai u) as [a|] eqn:Ha; simpl; split.
  - intros [Hin|[Hin|[]]]; [discriminate|]. destruct cb. injection Hin as <-.
    repeat split. exists i, u, k, updated. rewrite Ha. repeat split; congruence.
  - intros (-> & -> & _). auto.
  - intros [Hin|[]]. discriminate.
  - intros (_ & _ & i0 & u0 & k0 & r0 & He & Hn & Hai).
    inversion He; subst. rewrite H in Hn. inversion Hn; subst. congruence.
Qed.

Lemma reload_iff_successful_ai_save_witness :
  reachable ai_save_in_flight /\
  exists w',
    step (Settle 0 (Fulfilled with_ai)) ai_save_in_flight = Some w' /\
    In (TimerSet WindowLocationReload 1000) (new_effects ai_save_in_flight w').
Proof.
  split; [exact ai_save_in_flight_reachable|].
  eexists. split; [reflexivity|].
  apply (reload_iff_successful_ai_save ai_save_in_flight _
           (Settle 0 (Fulfilled with_ai)) ai_save_in_flight_reachable eq_refl).
  split; [reflexivity|]. split; [reflexivity|].
  eexists 0, _, _, with_ai. split; [reflexivity|]. split; [reflexivity|].
  discriminate.
Defined.

(* ================================================================== *)
(** ** Update merger *)
(* ================================================================== *)

Lemma json_save_in_flight_reachable : reachable json_save_in_flight.
Proof.
  apply run_reachable
    with (evs := [Settle 0 (Fulfilled no_ai); Save (JObj [("provider", JStr "osm")])])
         (w := mount).
  - constructor.
  - reflexivity.
Qed.

(** C2.  In any state of a mounted component that holds loaded settings,
    when an in-flight update call is rejected the handler runs to its end:
    the settings held are the same as before, the error is logged with
    [console.error], the failure alert is shown, the saving flag is down,
    and nothing is left unhandled. *)
Theorem save_failure_keeps_settings
    (w : World) (i : nat) (u : SettingsUpdate) (k : Settled -> Prog unit)
    (err : JsError) (loaded : UserSettings) :
  reachable w ->
  settings w = Some loaded ->
  nth_error (inflight w) i = Some (updateSettings u, k) ->
  exists w',
    step (Settle i (Rejected err)) w = Some w' /\
    settings w' = Some loaded /\
    new_effects w w' =
      [ConsoleError "Failed to save settings:" err; Alerted "Failed to save settings"] /\
    saving w' = false /\
    existsb is_unhandled (new_effects w w') = false.
Proof.
  intros Hr Hs Hi.
  destruct (step_settle_enabled w i (Rejected err) Hi) as [w' Hstep].
  exists w'. split; [exact Hstep|].
  pose proof (@reachable_transition _ _ _ Hr Hstep) as Ht.
  rewrite (transition_new_effects Ht). unfold step_effects. rewrite Hi. simpl.
  inversion Ht; subst; clear Ht.
  - rewrite Hi in H3. discriminate.
  - rewrite Hi in H3. injection H3 as <- <-.
    destruct w as [tab st ld sv fx pend]; simpl in *. auto.
Qed.

Lemma save_failure_keeps_settings_witness :
  reachable json_save_in_flight /\
  settings json_save_in_flight = Some no_ai /\
  exists w',
    step (Settle 0 (Rejected "HTTP 500")) json_save_in_flight = Some w' /\
    settings w' = Some no_ai /\
    saving w' = false.
Proof.
  split; [exact json_save_in_flight_reachable|]. split; [reflexivity|].
  destruct (save_failure_keeps_settings json_save_in_flight 0 _ _ "HTTP 500" no_ai
              json_save_in_flight_reachable eq_refl eq_refl)
    as (w' & Hstep & Hs & _ & Hsv & _).
  exists w'. auto.
Defined.

(** C3.  From any state, [handleSave u] raises the saving flag, sends
    exactly [u] to the service and leaves the settings as they are while
    the call is in flight; when the call is fulfilled the settings become
    the response itself, whatever [u] holds.  The same goes for a save that
    settles later, after other events: in every state of a mounted
    component, the fulfilment of an in-flight update call stores the
    response. *)
Theorem save_stores_response (u : SettingsUpdate) (w : World) (response : UserSettings) :
  saving (exec (handleSave u) w) = true /\
  settings (exec (handleSave u) w) = settings w /\
  new_effects w (exec (handleSave u) w) = [Sent (updateSettings u)] /\
  (exists k, inflight (exec (handleSave u) w) = inflight w ++ [(updateSettings u, k)]) /\
  (exists w2,
     step (Settle (List.length (inflight w)) (Fulfilled response)) (exec (handleSave u) w)
       = Some w2 /\
     settings w2 = Some response /\ saving w2 = false) /\
  (forall w0 i k,
     reachable w0 ->
     nth_error (inflight w0) i = Some (updateSettings u, k) ->
     exists w', step (Settle i (Fulfilled response)) w0 = Some w' /\
                settings w' = Some response /\ saving w' = false).
Proof.
  destruct w as [tab st ld sv fx pend].
  destruct (exec_handleSave u (Build_World tab st ld sv fx pend)) as (k & Ho & Hx).
  rewrite Hx. inversion Ho as [|u0 k0 Hk]; subst.
  repeat split.
  - apply new_effects_app. reflexivity.
  - exists k. reflexivity.
  - eexists. split.
    + unfold step. cbn [inflight issue suspend emit perform].
      rewrite nth_error_app2, Nat.sub_diag by lia. reflexivity.
    + rewrite (save_fulfilled _ _ Hk). unfold maybe_reload.
      destruct (defined (Update.ai u)); split; reflexivity.
  - intros w0 i k1 Hr Hi.
    destruct (step_settle_enabled w0 i (Fulfilled response) Hi) as [w' Hstep].
    exists w'. split; [exact Hstep|].
    pose proof (@reachable_transition _ _ _ Hr Hstep) as Ht.
    inversion Ht; subst; clear Ht.
    + rewrite Hi in H3. discriminate.
    + unfold maybe_reload. destruct (defined (Update.ai u0)); split; reflexivity.
Qed.

Lemma save_stores_response_witness :
  exists w',
    step (Settle 0 (Fulfilled with_ai)) json_save_in_flight = Some w' /\
    settings w' = Some with_ai /\ saving w' = false.
Proof.
  destruct (save_stores_response
              (Update.mk (Some (JObj [("provider", JStr "osm")])) None None None None None)
              initial with_ai) as (_ & _ & _ & _ & _ & Hlater).
  apply (Hlater json_save_in_flight 0 _ json_save_in_flight_reachable eq_refl).
Defined.

(* ================================================================== *)
(** ** Settings store: the initial load *)
(* ================================================================== *)

(** Once the fetch has failed, nothing can happen any more. *)
Lemma failed_stuck w :
  settings w = None -> inflight w = [] -> forall e, step e w = None.
Proof.
  intros Hs Hi e. destruct e as [t| |slice|slice|i s];
    try (apply step_spinner; [now right | discriminate]).
  simpl. rewrite Hi. now destruct i.
Qed.

Lemma run_stuck w evs w' :
  (forall e, step e w = None) -> run evs w = Some w' -> w' = w.
Proof.
  intros Hst. destruct evs as [|e evs]; simpl.
  - congruence.
  - rewrite Hst. discriminate.
Qed.

(** C4.  In any state of a mounted component in which the fetch is in
    flight, its rejection is handled to the end: the error is logged with
    [console.error] and nothing is left unhandled, the loading flag is
    down, the settings are still unset, the component renders the spinner
    and no tab content, and it goes on rendering the spinner whatever
    happens afterwards. *)
Theorem load_failure_contained
    (w : World) (i : nat) (k : Settled -> Prog unit) (err : JsError) :
  reachable w ->
  nth_error (inflight w) i = Some (getSettings, k) ->
  exists w',
    step (Settle i (Rejected err)) w = Some w' /\
    new_effects w w' = [ConsoleError "Failed to load settings:" err] /\
    existsb is_unhandled (new_effects w w') = false /\
    loading w' = false /\
    settings w' = None /\
    render w' = inr Spinner /\
    forall evs w'', run evs w' = Some w'' -> render w'' = inr Spinner.
Proof.
  intros Hr Hi.
  destruct (step_settle_enabled w i (Rejected err) Hi) as [w' Hstep].
  exists w'. split; [exact Hstep|].
  pose proof (@reachable_transition _ _ _ Hr Hstep) as Ht.
  rewrite (transition_new_effects Ht). unfold step_effects. rewrite Hi. simpl.
  destruct (Inv_load_in_flight i (reachable_Inv Hr) Hi) as (Hs & Hl & Hin & ->).
  assert (Hw' : loading w' = false /\ settings w' = None /\ inflight w' = []).
  { inversion Ht; subst; clear Ht.
    - destruct w as [tab st ld sv fx pend]; simpl in *. subst. auto.
    - rewrite Hi in H3. discriminate. }
  destruct Hw' as (Hl' & Hs' & Hin').
  repeat split; auto.
  - apply render_spinner. now right.
  - intros evs w'' Hrun.
    rewrite (run_stuck w' evs w'' (failed_stuck w' Hs' Hin') Hrun).
    apply render_spinner. now right.
Qed.

Lemma load_failure_contained_witness :
  reachable mount /\
  exists w',
    step (Settle 0 (Rejected "Network Error")) mount = Some w' /\
    loading w' = false /\ settings w' = None /\ render w' = inr Spinner.
Proof.
  split; [exact reachable_mount|].
  destruct (load_failure_contained mount 0 _ "Network Error" reachable_mount eq_refl)
    as (w' & Hstep & _ & _ & Hl & Hs & Hv & _).
  exists w'. auto.
Defined.

(* ================================================================== *)
(** ** Tab router *)
(* ================================================================== *)

(** C5.  Whenever the dialog is rendered, the content area holds exactly one
    editor, the one of the active tab, and the [onSave] callback it is given
    sends an update with exactly one top-level key: [credentials] for
    [sources], [generation] for [generation], [export_profiles] for
    [export], [ui] for [ui], [cache] for [cache] and [ai] for [ai], holding
    the slice the editor passes. *)
Theorem tab_save_single_field (w : World) (us : UserSettings) :
  loading w = false -> settings w = Some us ->
  exists close sidebar editor,
    render w = inr (Dialog close sidebar [editor]) /\
    match activeTab w, editor with
    | Tab.sources, DataSourcesTab _ onSave _ =>
        single_field onSave Update.credentials_k Update.credentials
    | Tab.generation, GenerationTab _ onSave _ =>
        single_field onSave Update.generation_k Update.generation
    | Tab.export, ExportProfilesTab _ onSave _ =>
        single_field onSave Update.export_profiles_k Update.export_profiles
    | Tab.ui, UIPreferencesTab _ onSave _ =>
        single_field onSave Update.ui_k Update.ui
    | Tab.cache, CacheStorageTab _ onSave _ =>
        single_field onSave Update.cache_k Update.cache
    | Tab.ai, AITab _ onSave _ =>
        single_field onSave Update.ai_k Update.ai
    | _, _ => False
    end.
Proof.
  intros Hl Hs. do 3 eexists. split; [apply (render_dialog w Hl Hs)|].
  unfold editor_of. destruct (activeTab w); intros slice; eexists;
    (split; [reflexivity|]); split; reflexivity.
Qed.

Lemma tab_save_single_field_witness :
  exists close sidebar editor,
    render (loaded_on Tab.export no_ai) = inr (Dialog close sidebar [editor]) /\
    match editor with
    | ExportProfilesTab _ onSave _ =>
        single_field onSave Update.export_profiles_k Update.export_profiles
    | _ => False
    end.
Proof.
  exact (tab_save_single_field (loaded_on Tab.export no_ai) no_ai eq_refl eq_refl).
Defined.

(** A step that sends an update is a save from the editor on screen. *)
Lemma transition_sent e w w' u :
  transition e w w' ->
  In (Sent (updateSettings u)) (step_effects e w) ->
  saves e (activeTab w) u.
Proof.
  intros Ht Hin. inversion Ht; subst; clear Ht; unfold step_effects in Hin;
    rewrite ?H, ?H1 in Hin; simpl in Hin.
  - contradiction.
  - destruct Hin as [Hin|[]]. discriminate.
  - destruct Hin as [Hin|[]]. injection Hin as ->. left. eauto.
  - destruct Hin as [Hin|[]]. injection Hin as <-. right. eauto.
  - contradiction.
  - destruct Hin as [Hin|[]]. discriminate.
  - destruct (defined (Update.ai u0)); simpl in Hin;
      repeat (destruct Hin as [Hin|Hin]; try discriminate); contradiction.
  - repeat (destruct Hin as [Hin|Hin]; try discriminate); contradiction.
Qed.

(** Every update that was sent during a run was sent by a save event of
    that run. *)
Lemma sent_needs_save evs : forall w0 w u,
  reachable w0 -> run evs w0 = Some w ->
  In (Sent (updateSettings u)) (effects w) ->
  In (Sent (updateSettings u)) (effects w0) \/
  exists evs1 e evs2 w1,
    evs = evs1 ++ e :: evs2 /\ run evs1 w0 = Some w1 /\ saves e (activeTab w1) u.
Proof.
  induction evs as [|e evs IH]; simpl; intros w0 w u Hr Hrun Hin.
  - injection Hrun as <-. now left.
  - destruct (step e w0) as [w1|] eqn:Hstep; [|discriminate].
    pose proof (@reachable_transition _ _ _ Hr Hstep) as Ht.
    assert (Hr1 : reachable w1) by (econstructor; eauto).
    destruct (IH w1 w u Hr1 Hrun Hin) as [Hold|(evs1 & e' & evs2 & w2 & -> & Hrun1 & Hsv)].
    + rewrite (transition_effects Ht) in Hold. apply in_app_or in Hold as [Hold|Hnew].
      * now left.
      * right. exists [], e, evs, w0. repeat split.
        eapply transition_sent; eauto.
    + right. exists (e :: evs1), e', evs2, w2. repeat split; auto.
      simpl. now rewrite Hstep.
Qed.

(** C6.  When the loaded settings have no [ai] key, the AI tab hands its
    editor the fixed default object.  And in every run of a mounted
    component, an update with an [ai] field reaches the service only through
    an [onSave] call of the AI editor with that very slice, made while the
    AI tab is the active one: rendering the default sends nothing. *)
Theorem ai_default_rendered_not_sent :
  (forall w us,
     loading w = false -> settings w = Some us ->
     activeTab w = Tab.ai -> ai us = Absent ->
     exists close sidebar onSave,
       render w =
       inr (Dialog close sidebar
              [AITab {| enabled := false;
                        ollama_url := "http://localhost:11434";
                        vision_model := "qwen3-vl:235b-cloud";
                        coder_model := "qwen3-coder:480b-cloud";
                        auto_analyze := false;
                        timeout_seconds := 120 |}
                     onSave (saving w)])) /\
  (forall evs w u slice,
     run evs mount = Some w ->
     In (Sent (updateSettings u)) (effects w) ->
     Update.ai u = Some slice ->
     exists evs1 evs2 w1,
       evs = evs1 ++ SaveAI slice :: evs2 /\
       run evs1 mount = Some w1 /\
       activeTab w1 = Tab.ai).
Proof.
  split.
  - intros w us Hl Hs Ht Ha. do 3 eexists.
    rewrite (render_dialog w Hl Hs). unfold editor_of. rewrite Ht, Ha. reflexivity.
  - intros evs w u slice Hrun Hin Hai.
    destruct (sent_needs_save evs mount w u reachable_mount Hrun Hin)
      as [Hold|(evs1 & e & evs2 & w1 & -> & Hrun1 & Hsv)].
    + destruct mount_world as (k & _ & Hm). rewrite Hm in Hold. simpl in Hold.
      destruct Hold as [Hold|[]]. discriminate.
    + destruct Hsv as [(s & -> & Hu)|(s & -> & Ht & ->)].
      * exfalso. destruct (activeTab w1); simpl in Hu; try discriminate;
          injection Hu as <-; discriminate.
      * simpl in Hai. injection Hai as ->. exists evs1, evs2, w1. auto.
Qed.

Lemma ai_default_rendered_not_sent_witness :
  (exists close sidebar onSave,
     render (loaded_on Tab.ai no_ai) =
     inr (Dialog close sidebar [AITab ai_default onSave false])) /\
  (exists w evs1 evs2 w1,
     run default_saved mount = Some w /\
     default_saved = evs1 ++ SaveAI ai_default :: evs2 /\
     run evs1 mount = Some w1 /\
     activeTab w1 = Tab.ai).
Proof.
  destruct ai_default_rendered_not_sent as [Hrender Hsent]. split.
  - exact (Hrender (loaded_on Tab.ai no_ai) no_ai eq_refl eq_refl eq_refl eq_refl).
  - eexists.
    destruct (Hsent default_saved _ (ai_update ai_default) ai_default eq_refl)
      as (evs1 & evs2 & w1 & H1 & H2 & H3).
    + simpl. right. left. reflexivity.
    + reflexivity.
    + exists evs1, evs2, w1. repeat split; auto.
Defined.

(** C7.  The active tab is [sources] before and after the mount effect.
    Selecting a tab only writes the active-tab cell: the other cells, the
    effects and the in-flight calls are as before, from any state and with
    nothing thrown.  Selecting the tab that is already active gives the same
    state back, and selecting a tab twice is selecting it once. *)
Theorem selectTab_pure_idempotent :
  activeTab initial = Tab.sources /\
  activeTab mount = Tab.sources /\
  forall (id : TabId) (w : World),
    exec (selectTab id) w =
      {| activeTab := id; settings := settings w; loading := loading w;
         saving := saving w; effects := effects w; inflight := inflight w |} /\
    new_effects w (exec (selectTab id) w) = [] /\
    exec (selectTab (activeTab w)) w = w /\
    exec (selectTab id) (exec (selectTab id) w) = exec (selectTab id) w.
Proof.
  split; [reflexivity|]. split; [reflexivity|].
  intros id w. destruct w as [tab st ld sv fx pend]. repeat split.
  unfold new_effects. simpl. apply skipn_all.
Qed.

(* ================================================================== *)
(** ** Interaction while a call is in flight *)
(* ================================================================== *)

(** C8, as stated, fails right after the mount: the fetch is in flight, the
    component renders the spinner alone, and no click on a tab is
    possible. *)
Lemma no_tab_switching_during_load :
  reachable mount /\ load_in_flight mount /\
  render mount = inr Spinner /\ ~ can_switch_tabs mount.
Proof.
  split; [constructor|]. split; [|split].
  - exists 0. eexists. reflexivity.
  - reflexivity.
  - intros H. destruct (H Tab.generation) as [w' Hw']. discriminate.
Qed.

(** C8, amended.  In every state of a mounted component: while a save is in
    flight the sidebar is on screen and a click on any tab selects it,
    whatever the saving flag is; while the fetch is in flight the component
    renders the spinner alone and no click on a tab is possible. *)
Theorem tab_switching_while_in_flight (w : World) :
  reachable w ->
  (save_in_flight w ->
   forall t, step (Click t) w = Some (exec (selectTab t) w)) /\
  (load_in_flight w ->
   render w = inr Spinner /\ forall t, step (Click t) w = None).
Proof.
  intros Hr. pose proof (reachable_Inv Hr) as HI. split.
  - intros (i & u & k & Hi) t.
    destruct (settings w) as [us|] eqn:Hs.
    + destruct (Inv_ready_elim HI Hs) as [Hl _].
      rewrite (step_click w t Hl Hs). reflexivity.
    + exfalso. eapply Inv_no_save_before_load; eauto.
  - intros (i & k & Hi).
    destruct (Inv_load_in_flight i HI Hi) as (_ & Hl & _).
    split; [apply render_spinner; now left|].
    intros t. apply step_spinner; [now left|discriminate].
Qed.

Lemma tab_switching_while_in_flight_witness :
  reachable json_save_in_flight /\ save_in_flight json_save_in_flight /\
  step (Click Tab.cache) json_save_in_flight
  = Some (exec (selectTab Tab.cache) json_save_in_flight).
Proof.
  split; [exact json_save_in_flight_reachable|].
  assert (Hs : save_in_flight json_save_in_flight).
  { exists 0. do 2 eexists. reflexivity. }
  split; [exact Hs|].
  exact (proj1 (tab_switching_while_in_flight json_save_in_flight
                  json_save_in_flight_reachable) Hs Tab.cache).
Defined.

(* ================================================================== *)
(** ** The spinner guard *)
(* ================================================================== *)

(** C9.  From any state whatsoever, rendering returns a view: no property
    of a null [settings] is read.  The view is the spinner alone whenever
    [loading] is up or [settings] is null, and a dialog only comes with
    non-null settings, its one editor being built from them. *)
Theorem render_never_reads_null (w : World) :
  exists v,
    render w = inr v /\
    (loading w = true \/ settings w = None -> v = Spinner) /\
    (forall close sidebar content,
       v = Dialog close sidebar content ->
       exists us,
         settings w = Some us /\ loading w = false /\ content = [editor_of w us]).
Proof.
  destruct (render_cases w) as [[Hv Hsp]|(us & Hl & Hs & Hv)]; rewrite Hv.
  - eexists. split; [reflexivity|]. split; [reflexivity|].
    intros close sidebar content H. discriminate.
  - eexists. split; [reflexivity|]. split.
    + intros [H|H]; congruence.
    + intros close sidebar content H. injection H as _ _ <-. eauto.
Qed.

Lemma render_never_reads_null_witness :
  exists v, render initial = inr v /\ v = Spinner.
Proof.
  destruct (render_never_reads_null initial) as (v & Hv & Hsp & _).
  exists v. split; [exact Hv|]. apply Hsp. left. reflexivity.
Defined.

(* ================================================================== *)
(** ** The AI fallback *)
(* ================================================================== *)

(** C10.  On the AI tab the editor is given [settings.ai || default]: the
    [ai] property is falsy exactly when it is absent, [undefined] or
    [null], and then the editor gets the hard-coded default; an [ai] object
    is truthy and is handed over as it is, also when it equals the
    default. *)
Theorem ai_fallback_by_truthiness (w : World) (us : UserSettings) :
  loading w = false -> settings w = Some us -> activeTab w = Tab.ai ->
  exists close sidebar given onSave,
    render w = inr (Dialog close sidebar [AITab given onSave (saving w)]) /\
    (truthy (ai us) = false <->
     ai us = Absent \/ ai us = Undefined \/ ai us = Null) /\
    (truthy (ai us) = false ->
     given = {| enabled := false;
                ollama_url := "http://localhost:11434";
                vision_model := "qwen3-vl:235b-cloud";
                coder_model := "qwen3-coder:480b-cloud";
                auto_analyze := false;
                timeout_seconds := 120 |}) /\
    (forall a, ai us = Present a -> truthy (ai us) = true /\ given = a).
Proof.
  intros Hl Hs Ht. do 4 eexists. split.
  - rewrite (render_dialog w Hl Hs). unfold editor_of. rewrite Ht. reflexivity.
  - split; [|split].
    + destruct (ai us); simpl; split; auto; try discriminate.
      intros [H|[H|H]]; discriminate.
    + intros H. now apply js_or_truthy.
    + intros a Ha. rewrite Ha. split; reflexivity.
Qed.

Lemma ai_fallback_by_truthiness_witness :
  exists close sidebar onSave,
    render (loaded_on Tab.ai null_ai) =
    inr (Dialog close sidebar [AITab ai_default onSave false]).
Proof.
  destruct (ai_fallback_by_truthiness (loaded_on Tab.ai null_ai) null_ai
              eq_refl eq_refl eq_refl)
    as (close & sidebar & given & onSave & Hv & _ & Hfalsy & _).
  exists close, sidebar, onSave.
  rewrite Hv. rewrite (Hfalsy eq_refl). reflexivity.
Defined.

(* ================================================================== *)
(** ** Further properties of the component *)
(* ================================================================== *)

Lemma two_saves_in_flight_reachable : reachable two_saves_in_flight.
Proof.
  apply run_reachable
    with (evs := [ Settle 0 (Fulfilled no_ai); Save (JObj [("provider", JStr "osm")]);
                   Click Tab.ai; SaveAI ai_on ]) (w := mount).
  - constructor.
  - reflexivity.
Qed.

Lemma count_app {A} (f : A -> bool) l1 l2 :
  count f (l1 ++ l2) = count f l1 + count f l2.
Proof. unfold count. now rewrite filter_app, length_app. Qed.

Lemma count_remove_nth {A} (f : A -> bool) i l x :
  nth_error l i = Some x ->
  count f l = count f (remove_nth i l) + (if f x then 1 else 0).
Proof.
  intros H. rewrite <- (firstn_skipn_middle i l H) at 1. unfold remove_nth.
  rewrite !count_app. unfold count at 2. simpl.
  destruct (f x); simpl; unfold count; lia.
Qed.

(** The calls that stay in flight keep their order. *)
Lemma nth_error_remove_nth {A} (l : list A) i j x :
  i <> j -> nth_error l j = Some x ->
  nth_error (remove_nth i l) (shifted i j) = Some x.
Proof.
  intros Hij Hj. unfold remove_nth, shifted.
  assert (Hlen : j < List.length l) by (apply nth_error_Some; congruence).
  destruct (Nat.ltb_spec j i) as [Hlt|Hge].
  - rewrite nth_error_app1 by (rewrite length_firstn; lia).
    rewrite nth_error_firstn.
    destruct (Nat.ltb_spec j i); [assumption|lia].
  - rewrite nth_error_app2 by (rewrite length_firstn; lia).
    rewrite length_firstn, nth_error_skipn.
    replace (S i + (pred j - Nat.min i (List.length l))) with j by lia.
    assumption.
Qed.

(** A property of the effect trace that holds after the mount and is kept
    by the effects of every step holds in every state. *)
Lemma reachable_effects_ind (P : list Effect -> Prop) :
  P (effects mount) ->
  (forall e w, reachable w -> P (effects w) -> P (effects w ++ step_effects e w)) ->
  forall w, reachable w -> P (effects w).
Proof.
  intros Hm Hs w Hr. induction Hr as [|e w w' Hr IH Hstep].
  - exact Hm.
  - rewrite (transition_effects (@reachable_transition _ _ _ Hr Hstep)).
    now apply Hs.
Qed.

(** While the fetch is in flight the user has had no control to act on:
    the tab is the initial one and no save was started. *)
Lemma reachable_loading_cells w :
  reachable w -> loading w = true ->
  activeTab w = Tab.sources /\ saving w = false /\ effects w = [Sent getSettings].
Proof.
  intros Hr. induction Hr as [|e w w' Hr IH Hstep].
  - intros _. repeat split.
  - pose proof (@reachable_transition _ _ _ Hr Hstep) as Ht.
    pose proof (reachable_Inv Hr) as HI.
    inversion Ht; subst; clear Ht; intros Hl.
    + destruct w; simpl in *; congruence.
    + destruct w; simpl in *; congruence.
    + destruct w; simpl in *; congruence.
    + destruct w; simpl in *; congruence.
    + destruct w; simpl in *; discriminate.
    + destruct w; simpl in *; discriminate.
    + exfalso. destruct (settings w) as [us|] eqn:Hs.
      * destruct (Inv_ready_elim HI Hs) as [Hl0 _].
        unfold maybe_reload in Hl. destruct (defined (Update.ai u));
          destruct w; simpl in *; congruence.
      * eapply Inv_no_save_before_load; eauto.
    + exfalso. destruct (settings w) as [us|] eqn:Hs.
      * destruct (Inv_ready_elim HI Hs) as [Hl0 _].
        destruct w; simpl in *; congruence.
      * eapply Inv_no_save_before_load; eauto.
Qed.

(** X1.  In every state of a mounted component in which the fetch is in
    flight, its fulfilment stores the fetched settings, lowers the loading
    flag, and shows nothing to the user: no alert, no log, no call.
    Nothing is in flight afterwards, and the component now renders the
    dialog, open on the Data Sources tab with the fetched credentials and
    the saving flag down. *)
Theorem load_success_opens_dialog
    (w : World) (i : nat) (k : Settled -> Prog unit) (data : UserSettings) :
  reachable w ->
  nth_error (inflight w) i = Some (getSettings, k) ->
  exists w' close sidebar onSave,
    step (Settle i (Fulfilled data)) w = Some w' /\
    settings w' = Some data /\
    loading w' = false /\
    new_effects w w' = [] /\
    inflight w' = [] /\
    render w' = inr (Dialog close sidebar [DataSourcesTab (credentials data) onSave false]).
Proof.
  intros Hr Hi.
  destruct (step_settle_enabled w i (Fulfilled data) Hi) as [w' Hstep].
  pose proof (@reachable_transition _ _ _ Hr Hstep) as Ht.
  pose proof (transition_new_effects Ht) as Hfx.
  unfold step_effects in Hfx. rewrite Hi in Hfx. simpl in Hfx.
  destruct (Inv_load_in_flight i (reachable_Inv Hr) Hi) as (Hs & Hl & Hin & ->).
  destruct (reachable_loading_cells w Hr Hl) as (Htab & Hsv & _).
  assert (Hw' : settings w' = Some data /\ loading w' = false /\ inflight w' = [] /\
                activeTab w' = Tab.sources /\ saving w' = false).
  { inversion Ht; subst; clear Ht.
    - destruct w as [tab st ld sv fx pend]; simpl in *. subst. auto.
    - rewrite Hi in H3. discriminate. }
  destruct Hw' as (Hs' & Hl' & Hin' & Htab' & Hsv').
  exists w'. do 3 eexists. repeat split; try assumption.
  rewrite (render_dialog w' Hl' Hs'). unfold editor_of. rewrite Htab', Hsv'.
  reflexivity.
Qed.

Lemma load_success_opens_dialog_witness :
  reachable mount /\
  exists w' close sidebar onSave,
    step (Settle 0 (Fulfilled no_ai)) mount = Some w' /\
    settings w' = Some no_ai /\
    render w' = inr (Dialog close sidebar [DataSourcesTab (JObj []) onSave false]).
Proof.
  split; [exact reachable_mount|].
  destruct (load_success_opens_dialog mount 0 _ no_ai reachable_mount eq_refl)
    as (w' & close & sidebar & onSave & Hstep & Hs & _ & _ & _ & Hv).
  exists w', close, sidebar, onSave. auto.
Defined.

(** X2.  In every state of a mounted component the loading flag is up
    exactly while the fetch is in flight, and settings that are there come
    with the loading flag down. *)
Theorem loading_iff_fetch_in_flight (w : World) :
  reachable w ->
  (loading w = true <-> load_in_flight w) /\
  (settings w <> None -> loading w = false).
Proof.
  intros Hr. pose proof (reachable_Inv Hr) as HI. split; [split|].
  - intros Hl. destruct HI as [_ H]. rewrite Hl in H.
    destruct (settings w); [contradiction|].
    destruct H as [k H]. exists 0, k. now rewrite H.
  - intros (i & k & Hi). now destruct (Inv_load_in_flight i HI Hi) as (_ & Hl & _).
  - intros Hs. destruct (settings w) as [us|] eqn:E; [|congruence].
    now destruct (Inv_ready_elim HI E).
Qed.

Lemma loading_iff_fetch_in_flight_witness :
  loading json_save_in_flight = false /\ ~ load_in_flight json_save_in_flight.
Proof.
  destruct (loading_iff_fetch_in_flight json_save_in_flight
              json_save_in_flight_reachable) as [[Hto Hfrom] _].
  split; [reflexivity|].
  intros H. apply Hfrom in H. discriminate H.
Defined.

(** X3.  The settings are fetched once: in every state of a mounted
    component, whatever the user did and however the calls settled, the
    trace holds exactly one [getSettings] call. *)
Theorem settings_fetched_once (w : World) :
  reachable w -> count is_fetch (effects w) = 1.
Proof.
  apply (reachable_effects_ind (fun fx => count is_fetch fx = 1)).
  - reflexivity.
  - intros e w0 _ IH. rewrite count_app, IH.
    assert (H : count is_fetch (step_effects e w0) = 0).
    { unfold step_effects. destruct e as [t| |slice|slice|i s]; try reflexivity.
      - destruct (json_update (activeTab w0) slice); reflexivity.
      - destruct (nth_error (inflight w0) i) as [[r k]|]; [|reflexivity].
        destruct r, s; simpl; try reflexivity.
        destruct (defined (Update.ai updates)); reflexivity. }
    rewrite H. lia.
Qed.

Lemma settings_fetched_once_witness :
  count is_fetch (effects two_saves_in_flight) = 1.
Proof.
  exact (settings_fetched_once two_saves_in_flight two_saves_in_flight_reachable).
Defined.

(** X4.  No rejection escapes the handlers: in every state of a mounted
    component the trace holds no unhandled rejection, however the service
    calls settled. *)
Theorem no_unhandled_rejection (w : World) (err : JsError) :
  reachable w -> ~ In (Unhandled err) (effects w).
Proof.
  revert w.
  apply (reachable_effects_ind (fun fx => ~ In (Unhandled err) fx)).
  - destruct mount_world as (k & _ & ->). simpl. intros [H|[]]. discriminate.
  - intros e w0 _ IH Hin. apply in_app_or in Hin as [Hin|Hin]; [now apply IH|].
    unfold step_effects in Hin. destruct e as [t| |slice|slice|i s]; simpl in Hin.
    + contradiction.
    + destruct Hin as [Hin|[]]. discriminate.
    + destruct (json_update (activeTab w0) slice); simpl in Hin;
        repeat (destruct Hin as [Hin|Hin]; try discriminate); contradiction.
    + destruct Hin as [Hin|[]]. discriminate.
    + destruct (nth_error (inflight w0) i) as [[r k]|]; [|contradiction].
      destruct r, s; simpl in Hin;
        try destruct (defined (Update.ai updates)); simpl in Hin;
        repeat (destruct Hin as [Hin|Hin]; try discriminate); contradiction.
Qed.

Lemma no_unhandled_rejection_witness :
  ~ In (Unhandled "HTTP 500") (effects two_saves_in_flight).
Proof.
  exact (no_unhandled_rejection two_saves_in_flight "HTTP 500"
           two_saves_in_flight_reachable).
Defined.

Lemma transition_keeps_loaded e w w' :
  transition e w w' ->
  (loading w = false -> loading w' = false) /\
  (settings w <> None -> settings w' <> None).
Proof.
  intros Ht. inversion Ht; subst; clear Ht;
    try (destruct w; simpl in *; split; intros; congruence).
  unfold maybe_reload. destruct (defined (Update.ai u));
    destruct w; simpl in *; split; intros; congruence.
Qed.

(** X5.  Loaded settings are never lost: along every run of a mounted
    component, once the loading flag is down it stays down, and once the
    settings are there they are never null again, whether later saves
    succeed or fail.  So the dialog, once shown, is never replaced by the
    spinner. *)
Theorem loaded_stays_loaded (evs : list Event) (w w' : World) :
  reachable w -> run evs w = Some w' ->
  (loading w = false -> loading w' = false) /\
  (settings w <> None -> settings w' <> None) /\
  (forall v, render w = inr v -> v <> Spinner -> render w' <> inr Spinner).
Proof.
  intros Hr Hrun.
  assert (H : (loading w = false -> loading w' = false) /\
              (settings w <> None -> settings w' <> None)).
  { revert w Hr Hrun. induction evs as [|e evs IH]; simpl; intros w Hr Hrun.
    - injection Hrun as <-. auto.
    - destruct (step e w) as [w1|] eqn:Hstep; [|discriminate].
      pose proof (@reachable_transition _ _ _ Hr Hstep) as Ht.
      destruct (transition_keeps_loaded e w w1 Ht) as [H1 H2].
      destruct (IH w1 (@reachable_step e w w1 Hr Hstep) Hrun) as [H3 H4].
      split; auto. }
  destruct H as [Hl Hs]. repeat split; auto.
  intros v Hv Hne Hsp.
  destruct (render_cases w) as [[Hv' _]|(us & Hl0 & Hs0 & _)].
  - rewrite Hv' in Hv. injection Hv as <-. now apply Hne.
  - destruct (render_cases w') as [[_ [Hl'|Hs']]|(us' & _ & _ & Hd)].
    + rewrite (Hl Hl0) in Hl'. discriminate.
    + apply Hs; [congruence|assumption].
    + rewrite Hd in Hsp. discriminate.
Qed.

Lemma loaded_stays_loaded_witness :
  reachable json_save_in_flight /\
  exists w',
    run [Settle 0 (Rejected "HTTP 500"); Click Tab.cache] json_save_in_flight = Some w' /\
    loading w' = false /\ settings w' <> None.
Proof.
  split; [exact json_save_in_flight_reachable|].
  eexists. split; [reflexivity|].
  destruct (loaded_stays_loaded [Settle 0 (Rejected "HTTP 500"); Click Tab.cache]
              json_save_in_flight _ json_save_in_flight_reachable eq_refl)
    as (Hl & Hs & _).
  split; [apply Hl; reflexivity | apply Hs; discriminate].
Defined.



(** X7.  Whenever the dialog is rendered, the one editor in the content
    area is the editor of the active tab, and it is given that tab's own
    slice of the loaded settings ([credentials] for sources,
    [generation], [export_profiles], [ui], [cache], and [ai] or its
    default) together with the current saving flag. *)
Theorem editor_gets_own_slice (w : World) (us : UserSettings) :
  loading w = false -> settings w = Some us ->
  exists close sidebar editor,
    render w = inr (Dialog close sidebar [editor]) /\
    match activeTab w, editor with
    | Tab.sources, DataSourcesTab slice _ flag =>
        slice = credentials us /\ flag = saving w
    | Tab.generation, GenerationTab slice _ flag =>
        slice = generation us /\ flag = saving w
    | Tab.export, ExportProfilesTab slice _ flag =>
        slice = export_profiles us /\ flag = saving w
    | Tab.ui, UIPreferencesTab slice _ flag =>
        slice = ui us /\ flag = saving w
    | Tab.cache, CacheStorageTab slice _ flag =>
        slice = cache us /\ flag = saving w
    | Tab.ai, AITab slice _ flag =>
        slice = js_or (ai us) ai_default /\ flag = saving w
    | _, _ => False
    end.
Proof.
  intros Hl Hs. do 3 eexists. split; [apply (render_dialog w Hl Hs)|].
  unfold editor_of. destruct (activeTab w); split; reflexivity.
Qed.

Lemma editor_gets_own_slice_witness :
  exists close sidebar onSave,
    render json_save_in_flight =
    inr (Dialog close sidebar [DataSourcesTab (JObj []) onSave true]).
Proof.
  destruct (editor_gets_own_slice json_save_in_flight no_ai eq_refl eq_refl)
    as (close & sidebar & editor & Hv & Hed).
  injection Hv as <- <- <-. do 3 eexists. reflexivity.
Defined.

(** X8.  The close button is on screen exactly when the dialog is: a click
    on it is possible if and only if the loading flag is down and the
    settings are there, so not behind the spinner, and in particular not
    after a failed fetch.  The click calls the host's [onClose] once and
    leaves the component's state and the in-flight calls as they are. *)
Theorem close_only_from_dialog (w : World) :
  ((exists w', step ClickClose w = Some w') <->
   loading w = false /\ settings w <> None) /\
  (forall w', step ClickClose w = Some w' ->
     new_effects w w' = [Closed] /\
     activeTab w' = activeTab w /\ settings w' = settings w /\
     loading w' = loading w /\ saving w' = saving w /\
     inflight w' = inflight w).
Proof.
  destruct (render_cases w) as [[_ Hsp]|(us & Hl & Hs & _)].
  - assert (Hn : step ClickClose w = None)
      by (apply step_spinner; [exact Hsp|discriminate]).
    split; [split|].
    + intros [w' H]. congruence.
    + intros [Hl Hs]. destruct Hsp; [congruence|contradiction].
    + intros w' H. congruence.
  - rewrite (step_close w Hl Hs). split; [split|].
    + intros _. split; congruence.
    + eauto.
    + intros w' H. injection H as <-. destruct w.
      repeat split. apply new_effects_app. reflexivity.
Qed.

Lemma close_only_from_dialog_witness :
  exists w',
    step ClickClose json_save_in_flight = Some w' /\
    new_effects json_save_in_flight w' = [Closed].
Proof.
  destruct (close_only_from_dialog json_save_in_flight) as [[_ Hen] Hfx].
  destruct Hen as [w' Hw'].
  - split; [reflexivity|discriminate].
  - exists w'. split; [exact Hw'|]. now apply Hfx.
Defined.

(** X9.  The saving flag is never left up: in every state of a mounted
    component, if the saving flag is up then a save is in flight.  So once
    every save has settled, with success or with failure, the editors are
    told that no save is running. *)
Theorem saving_implies_save_in_flight (w : World) :
  reachable w -> saving w = true -> save_in_flight w.
Proof.
  intros Hr. induction Hr as [|e w w' Hr IH Hstep].
  - discriminate.
  - pose proof (@reachable_transition _ _ _ Hr Hstep) as Ht.
    pose proof (reachable_Inv Hr) as HI.
    inversion Ht; subst; clear Ht; intros Hsv.
    + destruct w; simpl in *; auto.
    + destruct w; simpl in *; auto.
    + exists (List.length (inflight w)), u, k. destruct w; simpl.
      now rewrite nth_error_app2, Nat.sub_diag by lia.
    + exists (List.length (inflight w)), (ai_update slice), k. destruct w; simpl.
      now rewrite nth_error_app2, Nat.sub_diag by lia.
    + exfalso. destruct (Inv_load_in_flight _ HI H) as (_ & Hl & _).
      destruct (reachable_loading_cells w Hr Hl) as (_ & Hf & _).
      destruct w; simpl in *; congruence.
    + exfalso. destruct (Inv_load_in_flight _ HI H) as (_ & Hl & _).
      destruct (reachable_loading_cells w Hr Hl) as (_ & Hf & _).
      destruct w; simpl in *; congruence.
    + exfalso. unfold maybe_reload in Hsv.
      destruct (defined (Update.ai u)); destruct w; simpl in *; discriminate.
    + exfalso. destruct w; simpl in *; discriminate.
Qed.

Lemma saving_implies_save_in_flight_witness :
  saving json_save_in_flight = true /\ save_in_flight json_save_in_flight.
Proof.
  split; [reflexivity|].
  exact (saving_implies_save_in_flight json_save_in_flight
           json_save_in_flight_reachable eq_refl).
Defined.

(** X10.  Saves are not coordinated: in every state of a mounted component
    with two saves in flight, whichever of them settles first, and whether
    it is fulfilled or rejected, lowers the saving flag although the other
    one is still in flight, at the position the removal leaves it. *)
Theorem first_settlement_lowers_saving
    (w : World) (i j : nat) (u1 u2 : SettingsUpdate)
    (k1 k2 : Settled -> Prog unit) (s : Settled) :
  reachable w ->
  i <> j ->
  nth_error (inflight w) i = Some (updateSettings u1, k1) ->
  nth_error (inflight w) j = Some (updateSettings u2, k2) ->
  exists w',
    step (Settle i s) w = Some w' /\
    saving w' = false /\
    nth_error (inflight w') (shifted i j) = Some (updateSettings u2, k2).
Proof.
  intros Hr Hij Hi Hj.
  destruct (step_settle_enabled w i s Hi) as [w' Hstep].
  exists w'. split; [exact Hstep|].
  pose proof (@reachable_transition _ _ _ Hr Hstep) as Ht.
  pose proof (nth_error_remove_nth (inflight w) i j _ Hij Hj) as Hrest.
  inversion Ht; subst; clear Ht; try (rewrite Hi in H3; discriminate).
  - unfold maybe_reload. destruct (defined (Update.ai u));
      destruct w; simpl in *; auto.
  - destruct w; simpl in *; auto.
Qed.

Lemma first_settlement_lowers_saving_witness :
  reachable two_saves_in_flight /\
  exists w',
    step (Settle 0 (Rejected "HTTP 500")) two_saves_in_flight = Some w' /\
    saving w' = false /\ save_in_flight w'.
Proof.
  split; [exact two_saves_in_flight_reachable|].
  destruct (first_settlement_lowers_saving two_saves_in_flight 0 1 _ _ _ _
              (Rejected "HTTP 500") two_saves_in_flight_reachable
              (fun H => O_S 0 H) eq_refl eq_refl)
    as (w' & Hstep & Hsv & Hrest).
  exists w'. split; [exact Hstep|]. split; [exact Hsv|].
  exists (shifted 0 1). eauto.
Defined.

(** X11.  The last response to arrive wins, not the last save issued: in
    every state of a mounted component with two saves in flight, if the
    later-issued one is fulfilled first and the earlier-issued one after
    it, the settings end up being the response to the earlier save. *)
Theorem late_response_overwrites
    (w : World) (i j : nat) (u1 u2 : SettingsUpdate)
    (k1 k2 : Settled -> Prog unit) (r1 r2 : UserSettings) :
  reachable w ->
  i < j ->
  nth_error (inflight w) i = Some (updateSettings u1, k1) ->
  nth_error (inflight w) j = Some (updateSettings u2, k2) ->
  exists w1 w2,
    step (Settle j (Fulfilled r2)) w = Some w1 /\
    settings w1 = Some r2 /\
    step (Settle i (Fulfilled r1)) w1 = Some w2 /\
    settings w2 = Some r1.
Proof.
  intros Hr Hij Hi Hj.
  destruct (step_settle_enabled w j (Fulfilled r2) Hj) as [w1 Hstep1].
  pose proof (@reachable_transition _ _ _ Hr Hstep1) as Ht1.
  assert (Hne : j <> i) by lia.
  pose proof (nth_error_remove_nth (inflight w) j i _ Hne Hi) as Hrest.
  unfold shifted in Hrest.
  destruct (Nat.ltb_spec i j) as [_|Hge]; [|lia].
  assert (H1 : settings w1 = Some r2 /\
               nth_error (inflight w1) i = Some (updateSettings u1, k1)).
  { inversion Ht1; subst; clear Ht1; try (rewrite Hj in H3; discriminate).
    unfold maybe_reload. destruct (defined (Update.ai u));
      destruct w; simpl in *; auto. }
  destruct H1 as [Hs1 Hi1].
  destruct (step_settle_enabled w1 i (Fulfilled r1) Hi1) as [w2 Hstep2].
  assert (Hr1 : reachable w1) by (econstructor; eauto).
  pose proof (@reachable_transition _ _ _ Hr1 Hstep2) as Ht2.
  exists w1, w2. repeat split; auto.
  inversion Ht2; subst; clear Ht2; try (rewrite Hi1 in H3; discriminate).
  unfold maybe_reload. destruct (defined (Update.ai u));
    destruct w1; reflexivity.
Qed.

Lemma late_response_overwrites_witness :
  reachable two_saves_in_flight /\
  exists w1 w2,
    step (Settle 1 (Fulfilled with_ai)) two_saves_in_flight = Some w1 /\
    step (Settle 0 (Fulfilled no_ai)) w1 = Some w2 /\
    settings w2 = Some no_ai.
Proof.
  split; [exact two_saves_in_flight_reachable|].
  destruct (late_response_overwrites two_saves_in_flight 0 1 _ _ _ _ no_ai with_ai
              two_saves_in_flight_reachable (le_n 1) eq_refl eq_refl)
    as (w1 & w2 & H1 & _ & H2 & H3).
  exists w1, w2. auto.
Defined.

(** X12.  Every save is answered once: in every state of a mounted
    component, the number of update calls sent equals the number of saves
    still in flight plus the number of alerts shown.  So each settled save,
    fulfilled or rejected, has shown exactly one alert, and nothing else
    ever alerts. *)
Theorem every_save_alerts_once (w : World) :
  reachable w ->
  count is_update_sent (effects w) =
  count is_save_pending (inflight w) + count is_alert (effects w).
Proof.
  intros Hr. induction Hr as [|e w w' Hr IH Hstep].
  - reflexivity.
  - pose proof (@reachable_transition _ _ _ Hr Hstep) as Ht.
    inversion Ht; subst; clear Ht; clear Hstep Hr.
    + destruct w; simpl in *; exact IH.
    + destruct w; simpl in *. rewrite !count_app, IH. unfold count; simpl. lia.
    + destruct w; simpl in *. rewrite !count_app, IH. unfold count; simpl. lia.
    + destruct w; simpl in *. rewrite !count_app, IH. unfold count; simpl. lia.
    + rewrite (count_remove_nth is_save_pending _ _ _ H) in IH.
      destruct w; simpl in *. rewrite IH. unfold count; simpl. lia.
    + rewrite (count_remove_nth is_save_pending _ _ _ H) in IH.
      destruct w; simpl in *. rewrite !count_app, IH. unfold count; simpl. lia.
    + rewrite (count_remove_nth is_save_pending _ _ _ H) in IH.
      unfold maybe_reload. destruct (defined (Update.ai u));
        destruct w; simpl in *; rewrite !count_app, IH; unfold count; simpl; lia.
    + rewrite (count_remove_nth is_save_pending _ _ _ H) in IH.
      destruct w; simpl in *. rewrite !count_app, IH. unfold count; simpl. lia.
Qed.

Lemma every_save_alerts_once_witness :
  count is_update_sent (effects two_saves_in_flight) =
  count is_save_pending (inflight two_saves_in_flight)
  + count is_alert (effects two_saves_in_flight) /\
  count is_save_pending (inflight two_saves_in_flight) = 2.
Proof.
  split.
  - exact (every_save_alerts_once two_saves_in_flight two_saves_in_flight_reachable).
  - reflexivity.
Defined.

(** X13.  A save is not refused while another one is running: whenever the
    dialog is rendered on a tab with a JSON editor, an [onSave] call goes
    through whatever the saving flag is and however many saves are in
    flight.  It sends the one-key update of that tab, adds one call behind
    those in flight, raises the saving flag, and touches neither the
    settings nor the active tab. *)
Theorem save_while_saving (w : World) (us : UserSettings) (slice : Json) :
  loading w = false -> settings w = Some us -> activeTab w <> Tab.ai ->
  exists w' u k,
    step (Save slice) w = Some w' /\
    json_update (activeTab w) slice = Some u /\
    new_effects w w' = [Sent (updateSettings u)] /\
    inflight w' = inflight w ++ [(updateSettings u, k)] /\
    saving w' = true /\
    settings w' = settings w /\
    activeTab w' = activeTab w.
Proof.
  intros Hl Hs Hai. rewrite (step_save w slice Hl Hs).
  destruct (json_update (activeTab w) slice) as [u|] eqn:Hu.
  - destruct (exec_handleSave u w) as (k & _ & Hx).
    exists (exec (handleSave u) w), u, k. cbn [option_map].
    split; [reflexivity|]. split; [reflexivity|]. rewrite Hx.
    destruct w; repeat split. apply new_effects_app. reflexivity.
  - exfalso. destruct (activeTab w); simpl in Hu; try discriminate. now apply Hai.
Qed.

Lemma save_while_saving_witness :
  saving json_save_in_flight = true /\
  exists w',
    step (Save (JObj [])) json_save_in_flight = Some w' /\
    List.length (inflight w') = 2.
Proof.
  split; [reflexivity|].
  destruct (save_while_saving json_save_in_flight no_ai (JObj []) eq_refl eq_refl)
    as (w' & u & k & Hstep & _ & _ & Hin & _).
  - discriminate.
  - exists w'. split; [exact Hstep|]. rewrite Hin. reflexivity.
Defined.

(** X14.  Only the editor on screen can save.  From any state, an [onSave]
    call of the AI editor is possible exactly when the dialog is rendered
    with the AI tab active, and an [onSave] call of a JSON editor exactly
    when the dialog is rendered with another tab active: behind the spinner
    nothing can be saved, and no tab can save another tab's slice. *)
Theorem save_needs_own_tab (w : World) (slice : Json) (ai_slice : AISettings) :
  ((exists w', step (SaveAI ai_slice) w = Some w') <->
   loading w = false /\ settings w <> None /\ activeTab w = Tab.ai) /\
  ((exists w', step (Save slice) w = Some w') <->
   loading w = false /\ settings w <> None /\ activeTab w <> Tab.ai).
Proof.
  destruct (render_cases w) as [[_ Hsp]|(us & Hl & Hs & _)].
  - rewrite !step_spinner by (auto; discriminate).
    split; split; try (intros [w' H]; discriminate);
      intros (Hl & Hs & _); destruct Hsp; congruence.
  - rewrite (step_save_ai w ai_slice Hl Hs), (step_save w slice Hl Hs).
    split; split.
    + intros [w' H]. destruct (activeTab w); try discriminate.
      repeat split; congruence.
    + intros (_ & _ & ->). simpl. eauto.
    + intros [w' H]. repeat split; try congruence.
      intros Ht. rewrite Ht in H. discriminate.
    + intros (_ & _ & Ht). destruct (activeTab w); simpl; eauto.
      now destruct Ht.
Qed.

Lemma save_needs_own_tab_witness :
  (exists w', step (Save (JObj [])) (loaded_on Tab.cache no_ai) = Some w') /\
  ~ (exists w', step (SaveAI ai_on) (loaded_on Tab.cache no_ai) = Some w').
Proof.
  destruct (save_needs_own_tab (loaded_on Tab.cache no_ai) (JObj []) ai_on)
    as [[Hai _] [_ Hjson]].
  split.
  - apply Hjson. repeat split; discriminate.
  - intros H. apply Hai in H. destruct H as (_ & _ & H). discriminate H.
Defined.

(** X15.  Each cell has its own writer.  In every step of a mounted
    component: the settings change only when a service call is fulfilled,
    and then they are the response; the active tab changes only by a click
    on a sidebar button, and then it is that button's tab; and the loading
    flag changes only when the fetch settles. *)
Theorem cells_change_by_their_events (w w' : World) (e : Event) :
  reachable w -> step e w = Some w' ->
  (settings w' = settings w \/
   exists i response, e = Settle i (Fulfilled response) /\ settings w' = Some response) /\
  (activeTab w' = activeTab w \/
   exists t, e = Click t /\ activeTab w' = t) /\
  (loading w' = loading w \/
   exists i k s, e = Settle i s /\ nth_error (inflight w) i = Some (getSettings, k)).
Proof.
  intros Hr Hstep. pose proof (@reachable_transition _ _ _ Hr Hstep) as Ht.
  clear Hstep Hr. inversion Ht; subst; clear Ht.
  - destruct w; simpl. repeat split; eauto.
  - destruct w; simpl. repeat split; eauto.
  - destruct w; simpl. repeat split; eauto.
  - destruct w; simpl. repeat split; eauto.
  - split; [right; destruct w; simpl; eauto|].
    split; [left; destruct w; reflexivity|]. right. eauto.
  - split; [left; destruct w; reflexivity|].
    split; [left; destruct w; reflexivity|]. right. eauto.
  - unfold maybe_reload.
    split; [right; destruct (defined (Update.ai u)); destruct w; simpl; eauto|].
    split; left; destruct (defined (Update.ai u)); destruct w; reflexivity.
  - split; [left; destruct w; reflexivity|].
    split; left; destruct w; reflexivity.
Qed.

Lemma cells_change_by_their_events_witness :
  reachable json_save_in_flight /\
  exists w',
    step (Settle 0 (Rejected "HTTP 500")) json_save_in_flight = Some w' /\
    settings w' = settings json_save_in_flight /\
    activeTab w' = activeTab json_save_in_flight.
Proof.
  split; [exact json_save_in_flight_reachable|].
  eexists. split; [reflexivity|].
  destruct (cells_change_by_their_events json_save_in_flight _
              (Settle 0 (Rejected "HTTP 500")) json_save_in_flight_reachable eq_refl)
    as (Hs & Ht & _).
  split.
  - destruct Hs as [Hs|(i & r & He & _)]; [exact Hs|discriminate He].
  - destruct Ht as [Ht|(t & He & _)]; [exact Ht|discriminate He].
Defined.
